(** * Verification of the data-engineering scripts

    A shallow embedding of the three scripts of the repository
    - [Code/ErrorHandling.py]  (module [ErrorHandling]),
    - [Code/Employee_ETL.py]   (module [EmployeeETL]),
    - [Code/SQLite.py]         (module [SQLite]),
    together with the properties the specification states about them.

    The scripts are glue around three libraries (PySpark, pandas, sqlite3).
    The library calls are modelled from their documented behaviour, at the
    places the scripts depend on; everything the scripts themselves decide
    (exception handlers, exit codes, the rename map, the order of the calls)
    is transcribed from the source. *)

From Stdlib Require Import ZArith QArith String Ascii List Sorted Lqa.
From stdpp Require Import base option list strings gmap pretty.

Local Open Scope string_scope.
Local Open Scope list_scope.

(** ** Python control flow: output, exceptions and [sys.exit] *)

Module Py.

(** The exception classes the scripts name or can observe.  Every
    constructor is a subclass of Python's [Exception]; [text] is what
    [str(e)] returns.  [AnalysisException] stands for that class and its
    subclasses, [PySparkException] for every other class below
    [pyspark.errors.PySparkException]; both carry the attribute [desc]. *)
Inductive exn : Type :=
| Py4JJavaError (text : string)
| AnalysisException (text desc : string)
| PySparkException (text desc : string)
| FileNotFoundError (text : string)
| KeyError (text : string)
| TypeError (text : string)
| ValueError (text : string)
| InvalidIndexError (text : string)
| OperationalError (text : string)
| IntegrityError (text : string)
| Exception (text : string).

(** [str(e)] *)
Definition str (e : exn) : string :=
  match e with
  | Py4JJavaError t | AnalysisException t _ | PySparkException t _
  | FileNotFoundError t | KeyError t | TypeError t | ValueError t
  | InvalidIndexError t | OperationalError t | IntegrityError t
  | Exception t => t
  end.

(** [isinstance(e, PySparkException)]: since PySpark 3.4 (the first
    release with [pyspark.errors]) [AnalysisException] derives from it. *)
Definition is_PySparkException (e : exn) : bool :=
  match e with
  | AnalysisException _ _ | PySparkException _ _ => true
  | _ => false
  end.

(** [isinstance(e, FileNotFoundError)] *)
Definition is_FileNotFoundError (e : exn) : bool :=
  match e with
  | FileNotFoundError _ => true
  | _ => false
  end.

(** [e.desc], read only on instances of [PySparkException]. *)
Definition desc (e : exn) : string :=
  match e with
  | AnalysisException _ d | PySparkException _ d => d
  | _ => ""
  end.

(** What a run leaves behind for an observer. *)
Inductive event : Type :=
| Print (line : string)
| SparkStop.

(** How a computation ends: a value, a raised exception, or [sys.exit]. *)
Inductive outcome (A : Type) : Type :=
| Return (a : A)
| Raise (e : exn)
| SysExit (code : Z).
Arguments Return {A} a.
Arguments Raise {A} e.
Arguments SysExit {A} code.

(** A computation: the events it emitted, in order, and how it ended. *)
Definition py (A : Type) : Type := list event * outcome A.

Definition ret {A} (a : A) : py A := ([], Return a).
Definition raise {A} (e : exn) : py A := ([], Raise e).
Definition sys_exit {A} (code : Z) : py A := ([], SysExit code).
Definition print (line : string) : py unit := ([Print line], Return tt).

Definition bind {A B} (m : py A) (k : A -> py B) : py B :=
  match m with
  | (t, Return a) => let (t', o) := k a in (t ++ t', o)
  | (t, Raise e) => (t, Raise e)
  | (t, SysExit c) => (t, SysExit c)
  end.

(** [try: m  except Exception as e: h e].  A handler that does not apply
    to [e] re-raises it; [sys.exit] is not an [Exception] and passes. *)
Definition try_except {A} (m : py A) (h : exn -> py A) : py A :=
  match m with
  | (t, Raise e) => let (t', o) := h e in (t ++ t', o)
  | _ => m
  end.

(** A library call that either raises or returns. *)
Definition call {A} (r : exn + A) : py A :=
  match r with
  | inl e => raise e
  | inr a => ret a
  end.

(** A library call that returns nothing, and may raise. *)
Definition call_ (r : option exn) : py unit :=
  match r with
  | Some e => raise e
  | None => ret tt
  end.

Definition trace {A} (m : py A) : list event := fst m.
Definition result {A} (m : py A) : outcome A := snd m.

(** The status the interpreter hands to the operating system: 0 when the
    script runs to its end, the argument of [sys.exit], and 1 for an
    exception nobody caught. *)
Definition exit_status {A} (m : py A) : Z :=
  match result m with
  | Return _ => 0
  | Raise _ => 1
  | SysExit c => c
  end.

(** A computation that cannot end in [sys.exit]. *)
Definition no_exit {A} (m : py A) : Prop :=
  forall code, result m <> SysExit code.

(** A computation that does not stop the session. *)
Definition quiet {A} (m : py A) : Prop := SparkStop ∉ trace m.

(** A computation that stops the session exactly when it returns. *)
Definition stops_iff_returns {A} (m : py A) : Prop :=
  SparkStop ∈ trace m <-> exists a, result m = Return a.

(** A computation that stops the session at most once, as its last
    event, and exactly when it returns. *)
Definition stops_last {A} (m : py A) : Prop :=
  exists t,
    (SparkStop ∉ t)
    /\ ((trace m = t /\ forall a, result m <> Return a)
        \/ (trace m = t ++ [SparkStop] /\ exists a, result m = Return a)).

(** [sub in s] *)
Fixpoint contains (sub s : string) : bool :=
  String.prefix sub s ||
  match s with
  | EmptyString => false
  | String _ s' => contains sub s'
  end.

(** [s.startswith(p)] *)
Definition startswith (s p : string) : bool := String.prefix p s.

(** A computation over a mutable state [S] (objects, files): it ends with
    a value or a raised exception, and in a new state either way. *)
Definition st (S A : Type) : Type := S -> (exn + A) * S.

Definition st_ret {S A} (a : A) : st S A := fun w => (inr a, w).
Definition st_raise {S A} (e : exn) : st S A := fun w => (inl e, w).
Definition st_bind {S A B} (m : st S A) (k : A -> st S B) : st S B :=
  fun w =>
    match m w with
    | (inr a, w') => k a w'
    | (inl e, w') => (inl e, w')
    end.

End Py.

Declare Scope py_scope.
Delimit Scope py_scope with py.
Notation "x <- m ;; k" := (Py.bind m (fun x => k))
  (at level 100, m at next level, right associativity) : py_scope.
Notation "m ;; k" := (Py.bind m (fun _ => k))
  (at level 100, right associativity) : py_scope.

Declare Scope st_scope.
Delimit Scope st_scope with st.
Notation "x <- m ;; k" := (Py.st_bind m (fun x => k))
  (at level 100, m at next level, right associativity) : st_scope.
Notation "m ;; k" := (Py.st_bind m (fun _ => k))
  (at level 100, right associativity) : st_scope.

(** ** [Code/ErrorHandling.py] *)

Module ErrorHandling.
Import Py.
Local Open Scope py_scope.

(** The Spark calls of the script that run something on the cluster. *)
Inductive action : Type :=
| Count
| Show (n : nat)
| Checkpoint
| CreateOrReplaceTempView (name : string).

Section Spark.
(** The non-null scalars of a dataset: strings, numbers, whatever the
    schema inference of the reader produced.  Only their equality
    matters here. *)
Context {scalar : Type} `{EqDecision scalar}.

(** A Spark [DataFrame]: the column names ([df.columns]), the rows as
    lists of cells ([None] is SQL null) and, since a DataFrame is a plan
    that the cluster runs at each action, the failure the cluster
    answers an action with ([None]: the action runs).
    [treeString] and [showString] are the texts [printSchema] and
    [show] print. *)
Record DataFrame : Type := mkDataFrame {
  columns : list string;
  rows : list (list (option scalar));
  job_fault : action -> option exn;
  checkpointed_fault : action -> option exn;
  treeString : string;
  showString : nat -> string
}.

(** A [SparkSession] as the script uses it: the reader, the SQL engine
    over the views registered so far, and the checkpoint directory. *)
Record SparkSession : Type := mkSparkSession {
  read_csv : string -> exn + DataFrame;
  sql : string -> exn + DataFrame;
  setCheckpointDir : string -> option exn
}.

(** How the analyser compares names: [spark.sql.caseSensitive] is off
    unless someone turns it on, and the script does not.  Letters are
    the ASCII letters. *)
Definition lower_ascii (a : ascii) : ascii :=
  let n := nat_of_ascii a in
  if ((65 <=? n) && (n <=? 90))%nat then ascii_of_nat (n + 32) else a.

Fixpoint lower (s : string) : string :=
  match s with
  | EmptyString => EmptyString
  | String a s' => String (lower_ascii a) (lower s')
  end.

Definition same_name (a b : string) : bool :=
  bool_decide (lower a = lower b).

(** A name the analyser takes as it stands: one without a dot (which
    separates a field from its struct), without a backquote (which
    quotes a name) and other than the star (which stands for every
    column). *)
Definition plain_name (c : string) : bool :=
  negb (contains "." c) && negb (contains "`" c) && negb (bool_decide (c = "*")).

(** The text of a quoted name, read from behind its opening backquote: a
    doubled backquote stands for one, a single one closes the name and
    must end it. *)
Fixpoint quoted (s acc : string) : option string :=
  match s with
  | EmptyString => None
  | String a s' =>
      if decide (a = "`"%char) then
        match s' with
        | EmptyString => Some acc
        | String b s'' =>
            if decide (b = "`"%char) then quoted s'' (acc +:+ "`") else None
        end
      else quoted s' (acc +:+ String a EmptyString)
  end.

(** The one name the parser reads out of the argument of [select]:
    the argument itself, or what its backquotes enclose.  There is none
    when the argument has several parts, separated by dots, or is
    malformed. *)
Definition attribute_name (c : string) : option string :=
  match c with
  | EmptyString => Some c
  | String a s' =>
      if decide (a = "`"%char) then quoted s' ""
      else if contains "." c || contains "`" c then None
      else Some c
  end.

(** Positions of the columns the analyser resolves the name [c] to,
    counted from [i]. *)
Fixpoint positions (c : string) (cols : list string) (i : nat) : list nat :=
  match cols with
  | [] => []
  | x :: cols' =>
      if same_name x c then i :: positions c cols' (S i)
      else positions c cols' (S i)
  end.

(** The cell of row [r] in column [i]. *)
Definition cell (i : nat) (r : list (option scalar)) : option scalar :=
  default None (r !! i).

(** [df.select(c)] on a frame of scalar columns that carries no alias.
    The star selects every column.  Any other argument is parsed into a
    name, which the analyser resolves at once and without regard to
    letter case: it refuses a name that no column or more than one
    column answers to, and an argument of several parts, since no
    column here is a struct. *)
Definition select (df : DataFrame) (c : string) : py DataFrame :=
  if decide (c = "*") then ret df
  else
    match attribute_name c with
    | None =>
        let m := "[UNRESOLVED_COLUMN] " +:+ c in
        raise (AnalysisException m m)
    | Some name =>
        match positions name (columns df) 0 with
        | [i] =>
            ret {| columns := [name];
                   rows := map (fun r => [cell i r]) (rows df);
                   job_fault := job_fault df;
                   checkpointed_fault := checkpointed_fault df;
                   treeString := treeString df;
                   showString := showString df |}
        | [] =>
            let m := "[UNRESOLVED_COLUMN] " +:+ c in
            raise (AnalysisException m m)
        | _ =>
            let m := "[AMBIGUOUS_REFERENCE] " +:+ c in
            raise (AnalysisException m m)
        end
    end.

(** [df.distinct()]: one row of each kind; null equals null here. *)
Definition distinct (df : DataFrame) : DataFrame :=
  {| columns := columns df;
     rows := remove_dups (rows df);
     job_fault := job_fault df;
     checkpointed_fault := checkpointed_fault df;
     treeString := treeString df;
     showString := showString df |}.

(** [df.count()] *)
Definition count (df : DataFrame) : py nat :=
  call_ (job_fault df Count);;
  ret (length (rows df)).

(** [df.show(n)] *)
Definition show (df : DataFrame) (n : nat) : py unit :=
  call_ (job_fault df (Show n));;
  print (showString df n).

(** [df.printSchema()]: the schema is known without a job. *)
Definition printSchema (df : DataFrame) : py unit :=
  print (treeString df).

(** [df.checkpoint(eager=True)]: the same data, now read from the
    checkpoint files. *)
Definition checkpoint (df : DataFrame) : py DataFrame :=
  call_ (job_fault df Checkpoint);;
  ret {| columns := columns df;
         rows := rows df;
         job_fault := checkpointed_fault df;
         checkpointed_fault := checkpointed_fault df;
         treeString := treeString df;
         showString := showString df |}.

(** [df.createOrReplaceTempView(name)]; what the view changes for later
    queries is part of the session's [sql]. *)
Definition createOrReplaceTempView (df : DataFrame) (name : string) : py unit :=
  call_ (job_fault df (CreateOrReplaceTempView name)).

(** [spark.stop()]: never raises. *)
Definition stop : py unit := ([SparkStop], Return tt).

(** [create_spark_session], lines 11-26; [getOrCreate] is what the
    builder chain answers. *)
Definition create_spark_session (getOrCreate : exn + SparkSession)
  : py SparkSession :=
  try_except (call getOrCreate)
    (fun e =>
       print ("Failed to create Spark session: " +:+ str e);;
       sys_exit 1).

Definition stopped_context : string :=
  "Cannot call methods on a stopped SparkContext".
Definition restart_message : string :=
  "Spark session has been stopped. Please restart it.".
Definition path_prefix : string := "'Path does not exist:".

(** The two conditions the reader recognises among the failures of
    [spark.read.csv]: lines 39 and 46. *)
Definition session_stopped (e : exn) : bool :=
  match e with
  | Py4JJavaError t => contains stopped_context t
  | _ => false
  end.

Definition path_missing (e : exn) : bool :=
  match e with
  | AnalysisException t _ => startswith t path_prefix
  | _ => false
  end.

(** [read_csv_handle_exceptions], lines 29-49. *)
Definition read_csv_handle_exceptions (spark : SparkSession)
    (file_path : string) : py DataFrame :=
  try_except (call (read_csv spark file_path))
    (fun e =>
       match e with
       | Py4JJavaError _ =>
           if contains stopped_context (str e)
           then raise (Exception restart_message)
           else raise e
       | AnalysisException _ _ =>
           if startswith (str e) path_prefix
           then raise (FileNotFoundError
                         ("File path does not exist: " +:+ file_path))
           else raise e
       | _ => raise e
       end).

(** [safe_distinct_count], lines 52-62. *)
Definition safe_distinct_count (df : DataFrame) (column_name : string)
  : py nat :=
  if decide (column_name ∈ columns df) then
    selected <- select df column_name;;
    count (distinct selected)
  else
    print ("Warning: Column '" +:+ column_name
           +:+ "' not found. Returning count=0.");;
    ret 0.

(** [run_sql_query], lines 65-75; Python's [None] is [None]. *)
Definition run_sql_query (spark : SparkSession) (query : string)
  : py (option DataFrame) :=
  try_except (df <- call (sql spark query);; ret (Some df))
    (fun e =>
       if is_PySparkException e then
         print ("SQL error: " +:+ desc e);;
         ret None
       else raise e).

Definition file_path : string := "hdfs:///user/data/customers.csv".
Definition query : string := "SELECT * FROM customers WHERE age > 30".
Definition bad_query : string := "SELECT * FROM nonexistent_table".

(** The part of [main] after the read, lines 99-127. *)
Definition main_body (spark : SparkSession) (df : DataFrame) : py unit :=
  printSchema df;;
  show df 5;;
  unique_customer_count <- safe_distinct_count df "customer_id";;
  print ("Unique customers count: " +:+ pretty unique_customer_count);;
  call_ (setCheckpointDir spark "/tmp/spark_checkpoints");;
  df_checkpointed <- checkpoint df;;
  n <- count df_checkpointed;;
  print ("Checkpointed DataFrame count: " +:+ pretty n);;
  createOrReplaceTempView df "customers";;
  result <- run_sql_query spark query;;
  match result with
  | Some r => show r 5
  | None => ret tt
  end;;
  run_sql_query spark bad_query;;
  stop.

(** [main], lines 78-127. *)
Definition main (getOrCreate : exn + SparkSession) : py unit :=
  spark <- create_spark_session getOrCreate;;
  df <- try_except (read_csv_handle_exceptions spark file_path)
          (fun err =>
             match err with
             | FileNotFoundError _ =>
                 print ("File error: " +:+ str err);;
                 stop;;
                 sys_exit 2
             | _ =>
                 print ("Error reading CSV: " +:+ str err);;
                 stop;;
                 sys_exit 3
             end);;
  main_body spark df.

(** The values of the column the plain name [c] resolves to, when there
    is exactly one. *)
Definition column_values (df : DataFrame) (c : string)
  : list (option scalar) :=
  match positions c (columns df) 0 with
  | i :: _ => map (cell i) (rows df)
  | [] => []
  end.

(** The rows [select] keeps of a frame: whole rows for the star, the
    cells of one column otherwise. *)
Definition selected_rows (df : DataFrame) (c : string)
  : list (list (option scalar)) :=
  if decide (c = "*") then rows df
  else
    match attribute_name c with
    | None => []
    | Some name => map (fun v => [v]) (column_values df name)
    end.

(** The number of distinct values of a column, null being one of them. *)
Definition distinct_values (vs : list (option scalar)) : nat :=
  length (remove_dups vs).

(** The number of distinct non-null values of a column, in the words of
    the specification of [safe_distinct_count]. *)
Definition distinct_non_null_values (vs : list (option scalar)) : nat :=
  length (remove_dups (omap id vs)).

End Spark.

Arguments DataFrame : clear implicits.
Arguments SparkSession : clear implicits.

End ErrorHandling.


(** ** [Code/Employee_ETL.py] *)

Module EmployeeETL.
Import Py.

(** A cell of a pandas column: missing ([NaN]), a number, or a string that
    the CSV reader left as it was.  Numbers are exact rationals: the
    rounding of binary floating point is not modelled. *)
Inductive cell : Type :=
| NaN
| Num (q : Q)
| Text (s : string).

(** A pandas [DataFrame]: its columns in order, each a name and the cells
    of that column.  Names may repeat (after a rename). *)
Abbreviation DataFrame := (list (string * list cell)).

Definition names (df : DataFrame) : list string := map fst df.

(** The number of rows, read off the first column. *)
Definition nrows (df : DataFrame) : nat :=
  match df with
  | [] => 0
  | (_, data) :: _ => length data
  end.

(** The first column called [c], if any. *)
Fixpoint lookup_column (c : string) (df : DataFrame) : option (list cell) :=
  match df with
  | [] => None
  | (n, data) :: df' => if decide (n = c) then Some data else lookup_column c df'
  end.

(** Positions of the columns called [c], counted from [i]. *)
Fixpoint positions (c : string) (df : DataFrame) (i : nat) : list nat :=
  match df with
  | [] => []
  | (n, _) :: df' =>
      if decide (n = c) then i :: positions c df' (S i)
      else positions c df' (S i)
  end.

(** *** The state of the interpreter

    Frames are objects: a variable holds the address of a frame in the
    heap, and [df['Salary']] on a frame with one such column is a Series
    over the column's cells.  What an in-place update of that Series does
    to the frame depends on the pandas that runs the script, which the
    repository does not pin: before pandas 3.0 the Series shares the cells
    with the frame, and an update of the Series is an update of the
    frame; from pandas 3.0 on (copy-on-write) a Series that is written to
    is a copy, and the frame keeps its cells. *)
Record world : Type := mkWorld {
  heap : list DataFrame;
  stdout : list string;
  written : gmap string DataFrame
}.

Abbreviation st := (Py.st world).
Abbreviation ret := Py.st_ret.
Abbreviation raise := Py.st_raise.

Definition print (line : string) : st unit :=
  fun w => (inr tt, {| heap := heap w; stdout := stdout w ++ [line]; written := written w |}).

Definition with_heap (h : list DataFrame) (w : world) : world :=
  {| heap := h; stdout := stdout w; written := written w |}.

(** A new object on the heap; its address is the next free one. *)
Definition alloc (df : DataFrame) : st nat :=
  fun w => (inr (length (heap w)), with_heap (heap w ++ [df]) w).

Definition load (addr : nat) : st DataFrame :=
  fun w =>
    match heap w !! addr with
    | Some df => (inr df, w)
    | None => (inl (Exception "dangling reference"), w)
    end.

Definition store (addr : nat) (df : DataFrame) : st unit :=
  fun w => (inr tt, with_heap (<[addr := df]> (heap w)) w).


Local Open Scope st_scope.

(** *** The pandas calls of the script *)

(** [df.rename(columns=mapper, inplace=True)]: a name the mapper does not
    know stays. *)
Definition rename_frame (mapper : gmap string string) (df : DataFrame) : DataFrame :=
  map (fun col => (default col.1 (mapper !! col.1), col.2)) df.

Definition rename (df : nat) (mapper : gmap string string) : st unit :=
  f <- load df;;
  store df (rename_frame mapper f).

(** What [df[key]] evaluates to: a Series over column [pos] of the frame
    at [addr], or, when several columns are called [key], a frame of
    those columns. *)
Inductive selection : Type :=
| SeriesOf (addr pos : nat)
| Frame (df : DataFrame).

(** [df[key]] *)
Definition getitem (df : nat) (key : string) : st selection :=
  f <- load df;;
  match positions key f 0 with
  | [] => raise (KeyError key)
  | [pos] => ret (SeriesOf df pos)
  | _ => ret (Frame (List.filter (fun col => bool_decide (col.1 = key)) f))
  end.

(** The cells of a Series that nobody wrote to: those of its frame. *)
Definition cells (addr pos : nat) : st (list cell) :=
  f <- load addr;;
  match f !! pos with
  | Some col => ret col.2
  | None => raise (Exception "dangling reference")
  end.

(** [df[key] = value] for a Series [value] over the frame's own index:
    the columns called [key] take the new cells; a new name is appended. *)
Definition set_column (key : string) (value : list cell) (f : DataFrame) : DataFrame :=
  if decide (key ∈ names f)
  then map (fun col => if decide (col.1 = key) then (col.1, value) else col) f
  else f ++ [(key, value)].

Definition setitem (df : nat) (key : string) (value : list cell) : st unit :=
  f <- load df;;
  store df (set_column key value f).

(** The numbers among the cells. *)
Definition numeric_values (data : list cell) : list Q :=
  omap (fun c => match c with Num q => Some q | _ => None end) data.

Definition is_text (c : cell) : bool :=
  match c with Text _ => true | _ => false end.

Fixpoint insert_sorted (q : Q) (l : list Q) : list Q :=
  match l with
  | [] => [q]
  | x :: l' => if Qle_bool q x then q :: l else x :: insert_sorted q l'
  end.

Definition sort_values (l : list Q) : list Q := foldr insert_sorted [] l.

(** The median of a list of numbers: the middle one in sorted order, the
    mean of the two middle ones (in lowest terms) when the count is even,
    and nothing ([NaN] in pandas) when there are none. *)
Definition median_of (l : list Q) : option Q :=
  let s := sort_values l in
  let n := length s in
  if decide (n = 0) then None
  else if Nat.even n
       then Some (Qred ((nth (n / 2 - 1) s 0%Q + nth (n / 2) s 0%Q) / 2)%Q)
       else Some (nth (n / 2) s 0%Q).

(** [Series.fillna(value)]: a [NaN] value fills nothing. *)
Definition fill (value : option Q) (data : list cell) : list cell :=
  match value with
  | None => data
  | Some q => map (fun c => match c with NaN => Num q | _ => c end) data
  end.

(** [Series.median()]: missing cells are skipped; strings cannot be
    averaged.  The script never takes the median of a frame. *)
Definition median (s : selection) : st (option Q) :=
  match s with
  | SeriesOf addr pos =>
      data <- cells addr pos;;
      if existsb is_text data
      then raise (TypeError "could not convert string to float")
      else ret (median_of (numeric_values data))
  | Frame _ => raise (Exception "unreachable: median of a frame")
  end.

(** [Series.fillna(value, inplace=True)] on the temporary [df[key]].
    Without copy-on-write the cells are shared with the frame, so the
    frame sees the new cells.  With copy-on-write the fill lands in the
    temporary Series, which nobody holds: pandas warns of the chained
    assignment and the frame is as before.  The script never fills a
    frame. *)
Definition fillna_inplace (copy_on_write : bool) (s : selection)
    (value : option Q) : st unit :=
  match s with
  | SeriesOf addr pos =>
      f <- load addr;;
      match f !! pos with
      | Some col =>
          if copy_on_write then ret tt
          else store addr (<[pos := (col.1, fill value col.2)]> f)
      | None => raise (Exception "dangling reference")
      end
  | Frame _ => raise (Exception "unreachable: fillna of a frame")
  end.

(** [df.to_csv(path, index=False)] *)
Definition to_csv (df : nat) (path : string) : st unit :=
  f <- load df;;
  fun w => (inr tt, {| heap := heap w; stdout := stdout w; written := <[path := f]> (written w) |}).

(** *** [pd.concat(objs, ignore_index=True)] *)

Definition has_unique_names (df : DataFrame) : bool :=
  bool_decide (NoDup (names df)).

Definition same_names (a b : DataFrame) : bool :=
  bool_decide (names a = names b).

(** The names of all frames, each once, in the order they first appear. *)
Definition union_names (dfs : list DataFrame) : list string :=
  reverse (remove_dups (reverse (List.concat (map names dfs)))).

(** A frame laid out on the columns [cols]: a column it lacks is missing
    in all its rows. *)
Definition reindex (cols : list string) (df : DataFrame) : DataFrame :=
  map (fun c => (c, default (replicate (nrows df) NaN) (lookup_column c df))) cols.

(** Rows of [b] below the rows of [a], column by column. *)
Definition below (a b : DataFrame) : DataFrame :=
  zip_with (fun ca cb => (ca.1, ca.2 ++ cb.2)) a b.

Definition stack (dfs : list DataFrame) : DataFrame :=
  match dfs with
  | [] => []
  | d :: rest => foldl below d rest
  end.

(** Nothing to concatenate is an error; frames with the same header are
    stacked as they are; otherwise the frames are laid out on the union of
    their names, which pandas refuses when a frame repeats a name. *)
Definition concat_frames (dfs : list DataFrame) : exn + DataFrame :=
  match dfs with
  | [] => inl (ValueError "No objects to concatenate")
  | d :: rest =>
      if forallb (same_names d) rest then inr (stack dfs)
      else if forallb has_unique_names dfs
           then inr (stack (map (reindex (union_names dfs)) dfs))
           else inl (InvalidIndexError
                       "Reindexing only valid with uniquely valued Index objects")
  end.

Fixpoint load_all (objs : list nat) : st (list DataFrame) :=
  match objs with
  | [] => ret []
  | a :: objs' =>
      f <- load a;;
      fs <- load_all objs';;
      ret (f :: fs)
  end.

Definition concat (objs : list nat) : st nat :=
  fs <- load_all objs;;
  match concat_frames fs with
  | inl e => raise e
  | inr f => alloc f
  end.


(** *** The script, lines 8-33 *)

Section Driver.

(** The number pandas reads a string as; [None] for a string it cannot
    read as a number. *)
Variable numeric_literal : string -> option Q.

(** Whether the pandas that runs the script copies on write: pandas 3.0
    and later do, earlier ones do not unless asked to. *)
Variable copy_on_write : bool.

(** [pd.to_numeric(..., errors='coerce')] on one cell. *)
Definition coerce (c : cell) : cell :=
  match c with
  | Text s =>
      match numeric_literal s with
      | Some q => Num q
      | None => NaN
      end
  | _ => c
  end.

(** [pd.to_numeric(arg, errors='coerce')]: a new Series; a frame is
    refused. *)
Definition to_numeric (arg : selection) : st (list cell) :=
  match arg with
  | SeriesOf addr pos =>
      data <- cells addr pos;;
      ret (map coerce data)
  | Frame _ =>
      raise (TypeError "arg must be a list, tuple, 1-d array, or Series")
  end.

(** An entry of the directory [./employee_data]: its name and what
    [pd.read_csv] makes of it. *)
Definition entry : Type := string * (exn + DataFrame).

(** [s.endswith(suffix)] *)
Fixpoint ends_with (suffix s : string) : bool :=
  bool_decide (s = suffix) ||
  match s with
  | EmptyString => false
  | String _ s' => ends_with suffix s'
  end.

(** [glob.glob("./employee_data/*.csv")]: the entries whose name ends in
    [.csv] and does not start with a dot, in the order of the listing. *)
Definition glob (directory : list entry) : list entry :=
  List.filter
    (fun e => negb (String.prefix "." e.1) && ends_with ".csv" e.1)
    directory.

(** [pd.read_csv(file)] *)
Definition read_csv (file : entry) : st nat :=
  match file.2 with
  | inl e => raise e
  | inr f => alloc f
  end.

(** [[pd.read_csv(file) for file in files]], line 9 *)
Fixpoint read_all (files : list entry) : st (list nat) :=
  match files with
  | [] => ret []
  | file :: files' =>
      df <- read_csv file;;
      dfs <- read_all files';;
      ret (df :: dfs)
  end.

(** The dictionary of lines 14-20. *)
Definition columns : gmap string string :=
  list_to_map
    [("empID", "Employee_ID"); ("id", "Employee_ID");
     ("sal", "Salary"); ("salary", "Salary");
     ("dept", "Department")].

(** The name a column has after the rename. *)
Definition canonical (c : string) : string := default c (columns !! c).

(** The body of the loop, lines 14-24.  On line 24 the receiver
    [df['Salary']] is evaluated before the argument
    [df['Salary'].median()]. *)
Definition loop_body (df : nat) : st unit :=
  rename df columns;;
  salary <- getitem df "Salary";;
  numeric <- to_numeric salary;;
  setitem df "Salary" numeric;;
  receiver <- getitem df "Salary";;
  salary' <- getitem df "Salary";;
  m <- median salary';;
  fillna_inplace copy_on_write receiver m.

(** The loop of lines 13-26, [standardized_dfs] being the list built so
    far. *)
Fixpoint loop (dataframes standardized_dfs : list nat) : st (list nat) :=
  match dataframes with
  | [] => ret standardized_dfs
  | df :: dataframes' =>
      loop_body df;;
      loop dataframes' (standardized_dfs ++ [df])
  end.

Definition script (directory : list entry) : st unit :=
  let files := glob directory in
  dataframes <- read_all files;;
  standardized_dfs <- loop dataframes [];;
  master_df <- concat standardized_dfs;;
  to_csv master_df "clean_employee_master.csv";;
  print " Employee master dataset saved!".

(** A run of the script in a fresh interpreter. *)
Definition run (directory : list entry) : (exn + unit) * world :=
  script directory {| heap := []; stdout := []; written := ∅ |}.

(** The file the run wrote, if it wrote it. *)
Definition master (directory : list entry) : option DataFrame :=
  written (run directory).2 !! "clean_employee_master.csv".

(** *** What the loop does to one frame, as a function *)

(** A salary column after lines 23-24: the fill of line 24 reaches the
    column only without copy-on-write. *)
Definition impute (data : list cell) : list cell :=
  let numeric := map coerce data in
  if copy_on_write then numeric
  else fill (median_of (numeric_values numeric)) numeric.

(** A frame after lines 14-24. *)
Definition standardize (f : DataFrame) : exn + DataFrame :=
  let renamed := rename_frame columns f in
  match positions "Salary" renamed 0 with
  | [] => inl (KeyError "Salary")
  | [_] =>
      inr (map (fun col => if decide (col.1 = "Salary")
                           then (col.1, impute col.2) else col) renamed)
  | _ => inl (TypeError "arg must be a list, tuple, 1-d array, or Series")
  end.

(** The results of a list of calls, or the first exception. *)
Fixpoint collect {A} (l : list (exn + A)) : exn + list A :=
  match l with
  | [] => inr []
  | inl e :: _ => inl e
  | inr a :: l' =>
      match collect l' with
      | inl e => inl e
      | inr l'' => inr (a :: l'')
      end
  end.

(** The frames [pd.read_csv] makes of the files the pattern matches. *)
Definition sources (directory : list entry) : exn + list DataFrame :=
  collect (map snd (glob directory)).

(** The master frame as a function of the directory. *)
Definition pipeline (directory : list entry) : exn + DataFrame :=
  match sources directory with
  | inl e => inl e
  | inr frames =>
      match collect (map standardize frames) with
      | inl e => inl e
      | inr fs => concat_frames fs
      end
  end.

(** The cells of the first column called [c]; none when there is no such
    column. *)
Definition column_of (c : string) (f : DataFrame) : list cell :=
  default [] (lookup_column c f).

(** The salary cells of a source file: the cells of its column that the
    rename calls [Salary]. *)
Definition salary_source (f : DataFrame) : list cell :=
  default [] (lookup_column "Salary" (rename_frame columns f)).

(** The numeric salaries of a source file. *)
Definition numeric_salaries (f : DataFrame) : list Q :=
  numeric_values (map coerce (salary_source f)).

(** The names the script knows, and the names it gives them. *)
Definition synonyms : list string := ["empID"; "id"; "sal"; "salary"; "dept"].
Definition canonical_names : list string :=
  ["Employee_ID"; "Salary"; "Department"].

(** A source file whose header uses the known names, one for each thing
    it holds, the salary among them. *)
Definition recognised (f : DataFrame) : Prop :=
  Forall (fun n => n ∈ synonyms) (names f)
  /\ NoDup (map canonical (names f))
  /\ "Salary" ∈ map canonical (names f).

(** The row of the merged output that row [i] of the [k]-th file becomes. *)
Definition merged_row (frames : list DataFrame) (k i : nat) : nat :=
  length (List.concat (map salary_source (take k frames))) + i.

End Driver.

(** A median as a cell: no median is [NaN]. *)
Definition median_cell (m : option Q) : cell :=
  match m with
  | Some q => Num q
  | None => NaN
  end.

(** A reader of plain decimal numerals, for the examples: pandas reads
    these strings as these numbers, and does not read a string without
    digits as a number. *)
Fixpoint digits (s : string) (acc : N) : option N :=
  match s with
  | EmptyString => Some acc
  | String a s' =>
      let n := N_of_ascii a in
      if ((48 <=? n) && (n <=? 57))%N then digits s' (10 * acc + (n - 48))%N
      else None
  end.

Definition decimal (s : string) : option Q :=
  match s with
  | EmptyString => None
  | _ => (fun n => inject_Z (Z.of_N n)) <$> digits s 0%N
  end.

End EmployeeETL.



(** ** [Code/SQLite.py] *)

Module SQLite.
Import Py.
Local Open Scope st_scope.

(** A value as SQLite stores it (the storage classes the script uses). *)
Inductive value : Type :=
| Null
| Integer (z : Z)
| Real (q : Q)
| Text (s : string).

(** A table: the names of the columns an [INSERT] supplies, and the rows
    in the order a scan of the table returns them.  A table is [bare]
    when it is declared the way line 4 declares [movie(title, year,
    score)], by the names of its columns and nothing else: no declared
    type, no key, no constraint, no default, no generated column, and no
    trigger on it.  A bare table stores a value in the class it was
    given in, numbers its rows upwards (none has the largest number
    there is) and returns them in that order. *)
Record table : Type := mkTable {
  columns : list string;
  rows : list (list value);
  bare : bool
}.

(** The statements of the script. *)
Inductive statement : Type :=
| CreateTableIfNotExists (name : string) (cols : list string)
| InsertValues (name : string) (vals : list value)
| SelectAll (name : string).

(** A connection and its cursor: the database file, the connection's own
    view of it (which [commit] writes to the file), the rows the last
    query left in the cursor, and what was printed. *)
Record session : Type := mkSession {
  file : gmap string table;
  view : gmap string table;
  cursor : list (list value);
  stdout : list (list (list value))
}.

Section Engine.

(** What SQLite makes of an [INSERT] of as many values as the table has
    columns, into a table that is not bare: a conversion of the values,
    a refusal by a key or a constraint, the work of a trigger anywhere
    in the database.  The script leaves this to the engine. *)
Variable insert_declared :
  gmap string table -> string -> list value -> exn + gmap string table.

(** [sqlite3.connect(path)]: an absent file is an empty database. *)
Definition connect (db : gmap string table) : session :=
  {| file := db; view := db; cursor := []; stdout := [] |}.

Definition set_view (v : gmap string table) : st session unit :=
  fun c => (inr tt, {| file := file c; view := v; cursor := cursor c; stdout := stdout c |}).

(** [cur.execute(statement)] *)
Definition execute (stmt : statement) : st session unit :=
  fun c =>
    match stmt with
    | CreateTableIfNotExists name cols =>
        match view c !! name with
        | Some _ => (inr tt, c)
        | None =>
            set_view (<[name := {| columns := cols; rows := []; bare := true |}]>
                        (view c)) c
        end
    | InsertValues name vals =>
        match view c !! name with
        | None => (inl (OperationalError ("no such table: " +:+ name)), c)
        | Some t =>
            if decide (length vals = length (columns t))
            then
              if bare t
              then set_view (<[name := {| columns := columns t;
                                          rows := rows t ++ [vals];
                                          bare := true |}]> (view c)) c
              else
                match insert_declared (view c) name vals with
                | inl e => (inl e, c)
                | inr v => set_view v c
                end
            else (inl (OperationalError
                         ("table " +:+ name +:+ " has "
                          +:+ pretty (length (columns t)) +:+ " columns but "
                          +:+ pretty (length vals) +:+ " values were supplied")), c)
        end
    | SelectAll name =>
        match view c !! name with
        | None => (inl (OperationalError ("no such table: " +:+ name)), c)
        | Some t =>
            (inr tt, {| file := file c; view := view c; cursor := rows t; stdout := stdout c |})
        end
    end.

(** [conn.commit()] *)
Definition commit : st session unit :=
  fun c => (inr tt, {| file := view c; view := view c; cursor := cursor c; stdout := stdout c |}).

(** [cur.fetchall()]: the rows left in the cursor, which is then empty. *)
Definition fetchall : st session (list (list value)) :=
  fun c => (inr (cursor c), {| file := file c; view := view c; cursor := []; stdout := stdout c |}).

(** [print(rows)] *)
Definition print (rs : list (list value)) : st session unit :=
  fun c => (inr tt, {| file := file c; view := view c; cursor := cursor c; stdout := stdout c ++ [rs] |}).

(** [conn.close()]: what was not committed is gone. *)
Definition close : st session unit :=
  fun c => (inr tt, {| file := file c; view := file c; cursor := []; stdout := stdout c |}).

(** The row of line 6. *)
Definition the_row : list value := [Text "Title"; Integer 2025; Real (19 # 2)].

(** The script, lines 2-11, on the database found in [your_database.db]. *)
Definition script (db : gmap string table) : (exn + unit) * session :=
  (execute (CreateTableIfNotExists "movie" ["title"; "year"; "score"]);;
   commit;;
   execute (InsertValues "movie" the_row);;
   commit;;
   execute (SelectAll "movie");;
   rs <- fetchall;;
   print rs;;
   close) (connect db).

(** The bare table [movie] after the script: the one that was there, or
    a new one with the columns [title], [year], [score], and one more
    row. *)
Definition movie_after (db : gmap string table) : table :=
  match db !! "movie" with
  | Some t => {| columns := columns t; rows := rows t ++ [the_row]; bare := true |}
  | None => {| columns := ["title"; "year"; "score"]; rows := [the_row]; bare := true |}
  end.

(** The database file a run of the script leaves behind. *)
Definition database_after (db : gmap string table) : gmap string table :=
  file (script db).2.

(** The rows of [movie] before a run; none when the table is not there. *)
Definition old_rows (db : gmap string table) : list (list value) :=
  match db !! "movie" with
  | Some t => rows t
  | None => []
  end.

(** A database on which the script meets its own table or none: [movie]
    is absent, or bare with three columns. *)
Definition own_table (db : gmap string table) : Prop :=
  forall t, db !! "movie" = Some t -> bare t = true /\ length (columns t) = 3.

End Engine.

End SQLite.

(** ** Concrete inputs *)

Module Examples.
Import Py.

(** A customers table with a null and a repeated [customer_id]. *)
Definition customers : ErrorHandling.DataFrame Z :=
  {| ErrorHandling.columns := ["customer_id"; "age"];
     ErrorHandling.rows := [[Some 1; Some 34]; [None; Some 51]; [Some 1; Some 28]]%Z;
     ErrorHandling.job_fault := fun _ => None;
     ErrorHandling.checkpointed_fault := fun _ => None;
     ErrorHandling.treeString := "root";
     ErrorHandling.showString := fun _ => "rows" |}.

(** The same table on a cluster that loses its executors when asked to
    show rows. *)
Definition executor_lost : exn :=
  Py4JJavaError "An error occurred while calling o42.showString.".

Definition customers_unshowable : ErrorHandling.DataFrame Z :=
  {| ErrorHandling.columns := ErrorHandling.columns customers;
     ErrorHandling.rows := ErrorHandling.rows customers;
     ErrorHandling.job_fault :=
       fun a => match a with ErrorHandling.Show _ => Some executor_lost | _ => None end;
     ErrorHandling.checkpointed_fault := fun _ => None;
     ErrorHandling.treeString := "root";
     ErrorHandling.showString := fun _ => "rows" |}.

Definition no_such_table : exn :=
  AnalysisException "[TABLE_OR_VIEW_NOT_FOUND] nonexistent_table"
                    "[TABLE_OR_VIEW_NOT_FOUND] nonexistent_table".

(** A session that reads [df] from every path and knows no table. *)
Definition session_reading (df : ErrorHandling.DataFrame Z)
  : ErrorHandling.SparkSession Z :=
  {| ErrorHandling.read_csv := fun _ => inr df;
     ErrorHandling.sql := fun _ => inl no_such_table;
     ErrorHandling.setCheckpointDir := fun _ => None |}.

(** A session whose reader fails with [e] on every path. *)
Definition session_failing (e : exn) : ErrorHandling.SparkSession Z :=
  {| ErrorHandling.read_csv := fun _ => inl e;
     ErrorHandling.sql := fun _ => inl no_such_table;
     ErrorHandling.setCheckpointDir := fun _ => None |}.

(** The failure of a reader whose path does not exist, in the wording of
    Spark's error class [PATH_NOT_FOUND], and in the quoted wording the
    script looks for. *)
Definition path_not_found_error_class : exn :=
  AnalysisException
    "[PATH_NOT_FOUND] Path does not exist: hdfs:///user/data/customers.csv."
    "[PATH_NOT_FOUND] Path does not exist: hdfs:///user/data/customers.csv.".

Definition path_does_not_exist_quoted : exn :=
  AnalysisException
    "'Path does not exist: hdfs:///user/data/customers.csv;'"
    "Path does not exist: hdfs:///user/data/customers.csv;".

Definition stopped_context_error : exn :=
  Py4JJavaError
    "An error occurred while calling o25.csv. : java.lang.IllegalStateException: Cannot call methods on a stopped SparkContext.".

(** Three branch files as [pd.read_csv] hands them over.  In the first a
    salary is blank, and the column is numeric; in the second one salary
    is not a number, so that the column holds strings; in the third none
    is a number. *)
Definition branch_a : EmployeeETL.DataFrame :=
  [("empID", [EmployeeETL.Num 1; EmployeeETL.Num 2; EmployeeETL.Num 3]);
   ("sal", [EmployeeETL.Num 50000; EmployeeETL.NaN; EmployeeETL.Num 70000]);
   ("dept", [EmployeeETL.Text "HR"; EmployeeETL.Text "IT"; EmployeeETL.Text "IT"])].

Definition branch_b : EmployeeETL.DataFrame :=
  [("id", [EmployeeETL.Num 4; EmployeeETL.Num 5; EmployeeETL.Num 6; EmployeeETL.Num 7]);
   ("salary", [EmployeeETL.Text "10"; EmployeeETL.Text "unknown";
               EmployeeETL.Text "30"; EmployeeETL.Text "20"]);
   ("dept", [EmployeeETL.Text "HR"; EmployeeETL.Text "HR";
             EmployeeETL.Text "IT"; EmployeeETL.Text "IT"])].

Definition branch_c : EmployeeETL.DataFrame :=
  [("id", [EmployeeETL.Num 8; EmployeeETL.Num 9]);
   ("sal", [EmployeeETL.NaN; EmployeeETL.Text "unknown"]);
   ("dept", [EmployeeETL.Text "HR"; EmployeeETL.Text "IT"])].

(** Listings of [./employee_data]. *)
Definition employee_data : list EmployeeETL.entry :=
  [("branch_a.csv", inr branch_a);
   ("notes.txt", inl (Exception "not a table"));
   ("branch_b.csv", inr branch_b)].

Definition employee_data_with_blanks : list EmployeeETL.entry :=
  [("branch_a.csv", inr branch_a); ("branch_c.csv", inr branch_c)].

Definition no_csv_files : list EmployeeETL.entry :=
  [("notes.txt", inl (Exception "not a table")); (".branch_a.csv", inr branch_a)].

(** What the script writes for [employee_data] without copy-on-write. *)
Definition employee_master : EmployeeETL.DataFrame :=
  [("Employee_ID",
    [EmployeeETL.Num 1; EmployeeETL.Num 2; EmployeeETL.Num 3; EmployeeETL.Num 4;
     EmployeeETL.Num 5; EmployeeETL.Num 6; EmployeeETL.Num 7]);
   ("Salary",
    [EmployeeETL.Num 50000; EmployeeETL.Num 60000; EmployeeETL.Num 70000;
     EmployeeETL.Num 10; EmployeeETL.Num 20; EmployeeETL.Num 30; EmployeeETL.Num 20]);
   ("Department",
    [EmployeeETL.Text "HR"; EmployeeETL.Text "IT"; EmployeeETL.Text "IT";
     EmployeeETL.Text "HR"; EmployeeETL.Text "HR"; EmployeeETL.Text "IT";
     EmployeeETL.Text "IT"])].

(** What the script writes for [employee_data_with_blanks] without
    copy-on-write. *)
Definition employee_master_with_blanks : EmployeeETL.DataFrame :=
  [("Employee_ID",
    [EmployeeETL.Num 1; EmployeeETL.Num 2; EmployeeETL.Num 3;
     EmployeeETL.Num 8; EmployeeETL.Num 9]);
   ("Salary",
    [EmployeeETL.Num 50000; EmployeeETL.Num 60000; EmployeeETL.Num 70000;
     EmployeeETL.NaN; EmployeeETL.NaN]);
   ("Department",
    [EmployeeETL.Text "HR"; EmployeeETL.Text "IT"; EmployeeETL.Text "IT";
     EmployeeETL.Text "HR"; EmployeeETL.Text "IT"])].

(** The customers table with its rows in another order, one of them
    twice. *)
Definition customers_shuffled : ErrorHandling.DataFrame Z :=
  {| ErrorHandling.columns := ["customer_id"; "age"];
     ErrorHandling.rows :=
       [[None; Some 51]; [Some 1; Some 28]; [Some 1; Some 34]; [None; Some 51]]%Z;
     ErrorHandling.job_fault := fun _ => None;
     ErrorHandling.checkpointed_fault := fun _ => None;
     ErrorHandling.treeString := "root";
     ErrorHandling.showString := fun _ => "rows" |}.

(** A branch file without a salary column, and one with two. *)
Definition branch_without_salary : EmployeeETL.DataFrame :=
  [("id", [EmployeeETL.Num 10]); ("dept", [EmployeeETL.Text "HR"])].

Definition branch_two_salaries : EmployeeETL.DataFrame :=
  [("id", [EmployeeETL.Num 11]);
   ("sal", [EmployeeETL.Num 100]);
   ("salary", [EmployeeETL.Num 200])].

Definition employee_data_without_salary : list EmployeeETL.entry :=
  [("branch_a.csv", inr branch_a); ("branch_d.csv", inr branch_without_salary)].

Definition employee_data_two_salaries : list EmployeeETL.entry :=
  [("branch_a.csv", inr branch_a); ("branch_e.csv", inr branch_two_salaries)].

(** A listing with a file [pd.read_csv] cannot parse. *)
Definition employee_data_unreadable : list EmployeeETL.entry :=
  [("branch_d.csv", inr branch_without_salary);
   ("empty.csv", inl (ValueError "No columns to parse from file"));
   ("branch_b.csv", inr branch_b)].

(** A database whose [movie] table has another shape. *)
Definition two_column_movie : gmap string SQLite.table :=
  {[ "movie" := {| SQLite.columns := ["title"; "year"]; SQLite.rows := [];
                   SQLite.bare := true |} ]}.

(** The database file after a first run of the SQLite script. *)
Definition after_first_run : gmap string SQLite.table :=
  {[ "movie" := {| SQLite.columns := ["title"; "year"; "score"];
                   SQLite.rows := [SQLite.the_row];
                   SQLite.bare := true |} ]}.

(** The same file with a second table in it, one with a key. *)
Definition actor : SQLite.table :=
  {| SQLite.columns := ["id"; "name"];
     SQLite.rows := [[SQLite.Integer 1; SQLite.Text "Name"]];
     SQLite.bare := false |}.

Definition after_first_run_with_actor : gmap string SQLite.table :=
  <["actor" := actor]> after_first_run.

(** An engine whose declared tables refuse every row. *)
Definition refusing :
  gmap string SQLite.table -> string -> list SQLite.value
  -> exn + gmap string SQLite.table :=
  fun _ _ _ => inl (IntegrityError "UNIQUE constraint failed: movie.title").

(** A [movie] table with three columns and a key on the title, which
    holds the title of line 6 already. *)
Definition keyed_movie : gmap string SQLite.table :=
  {[ "movie" := {| SQLite.columns := ["title"; "year"; "score"];
                   SQLite.rows := [SQLite.the_row];
                   SQLite.bare := false |} ]}.

(** A customers table whose header has the name twice, in two cases. *)
Definition customers_two_cases : ErrorHandling.DataFrame Z :=
  {| ErrorHandling.columns := ["customer_id"; "CUSTOMER_ID"];
     ErrorHandling.rows := [[Some 1; Some 1]; [Some 2; Some 2]]%Z;
     ErrorHandling.job_fault := fun _ => None;
     ErrorHandling.checkpointed_fault := fun _ => None;
     ErrorHandling.treeString := "root";
     ErrorHandling.showString := fun _ => "rows" |}.

(** A customers table whose header has a dot in a name. *)
Definition customers_dotted : ErrorHandling.DataFrame Z :=
  {| ErrorHandling.columns := ["customer.id"; "age"];
     ErrorHandling.rows := [[Some 1; Some 34]]%Z;
     ErrorHandling.job_fault := fun _ => None;
     ErrorHandling.checkpointed_fault := fun _ => None;
     ErrorHandling.treeString := "root";
     ErrorHandling.showString := fun _ => "rows" |}.

(** A customers table whose header has a quoted name, and one whose
    header has a star. *)
Definition customers_quoted : ErrorHandling.DataFrame Z :=
  {| ErrorHandling.columns := ["`customer_id`"; "age"];
     ErrorHandling.rows := [[Some 1; Some 34]]%Z;
     ErrorHandling.job_fault := fun _ => None;
     ErrorHandling.checkpointed_fault := fun _ => None;
     ErrorHandling.treeString := "root";
     ErrorHandling.showString := fun _ => "rows" |}.

Definition customers_starred : ErrorHandling.DataFrame Z :=
  {| ErrorHandling.columns := ["*"; "age"];
     ErrorHandling.rows := [[Some 1; Some 34]; [Some 1; Some 51]]%Z;
     ErrorHandling.job_fault := fun _ => None;
     ErrorHandling.checkpointed_fault := fun _ => None;
     ErrorHandling.treeString := "root";
     ErrorHandling.showString := fun _ => "rows" |}.

Definition customers_starred_once : ErrorHandling.DataFrame Z :=
  {| ErrorHandling.columns := ["*"; "age"];
     ErrorHandling.rows := [[Some 1; Some 34]]%Z;
     ErrorHandling.job_fault := fun _ => None;
     ErrorHandling.checkpointed_fault := fun _ => None;
     ErrorHandling.treeString := "root";
     ErrorHandling.showString := fun _ => "rows" |}.

(** The customers table on a cluster that loses its executors when
    asked to count. *)
Definition customers_uncountable : ErrorHandling.DataFrame Z :=
  {| ErrorHandling.columns := ErrorHandling.columns customers;
     ErrorHandling.rows := ErrorHandling.rows customers;
     ErrorHandling.job_fault :=
       fun a => match a with ErrorHandling.Count => Some executor_lost | _ => None end;
     ErrorHandling.checkpointed_fault := fun _ => None;
     ErrorHandling.treeString := "root";
     ErrorHandling.showString := fun _ => "rows" |}.

(** What the script writes for [employee_data] under copy-on-write. *)
Definition employee_master_copy_on_write : EmployeeETL.DataFrame :=
  [("Employee_ID",
    [EmployeeETL.Num 1; EmployeeETL.Num 2; EmployeeETL.Num 3; EmployeeETL.Num 4;
     EmployeeETL.Num 5; EmployeeETL.Num 6; EmployeeETL.Num 7]);
   ("Salary",
    [EmployeeETL.Num 50000; EmployeeETL.NaN; EmployeeETL.Num 70000;
     EmployeeETL.Num 10; EmployeeETL.NaN; EmployeeETL.Num 30; EmployeeETL.Num 20]);
   ("Department",
    [EmployeeETL.Text "HR"; EmployeeETL.Text "IT"; EmployeeETL.Text "IT";
     EmployeeETL.Text "HR"; EmployeeETL.Text "HR"; EmployeeETL.Text "IT";
     EmployeeETL.Text "IT"])].

End Examples.

(** * Properties *)

(** ** The error-handling script *)

Section ErrorHandlingFacts.
Import Py ErrorHandling.
Context {scalar : Type} `{EqDecision scalar}.
Implicit Types (df : DataFrame scalar) (spark : SparkSession scalar).
Local Open Scope py_scope.

Lemma no_exit_bind {A B} (m : py A) (k : A -> py B) :
  no_exit m -> (forall a, no_exit (k a)) -> no_exit (bind m k).
Proof.
  intros Hm Hk code. destruct m as [t [a | e | c]]; cbn.
  - specialize (Hk a code). destruct (k a) as [t' o]. exact Hk.
  - discriminate.
  - exfalso. exact (Hm c eq_refl).
Qed.

Lemma no_exit_try_except {A} (m : py A) (h : exn -> py A) :
  no_exit m -> (forall e, no_exit (h e)) -> no_exit (try_except m h).
Proof.
  intros Hm Hh code. destruct m as [t [a | e | c]]; cbn.
  - discriminate.
  - specialize (Hh e code). destruct (h e) as [t' o]. exact Hh.
  - exfalso. exact (Hm c eq_refl).
Qed.

Lemma no_exit_ret {A} (a : A) : no_exit (ret a).
Proof. intros c; discriminate. Qed.

Lemma no_exit_raise {A} (e : exn) : no_exit (@raise A e).
Proof. intros c; discriminate. Qed.

Lemma no_exit_print line : no_exit (print line).
Proof. intros c; discriminate. Qed.

Lemma no_exit_call {A} (r : exn + A) : no_exit (call r).
Proof. destruct r; intros c; discriminate. Qed.

Lemma no_exit_call_ r : no_exit (call_ r).
Proof. destruct r; intros c; discriminate. Qed.

Lemma no_exit_stop : no_exit stop.
Proof. intros c; discriminate. Qed.

Create HintDb no_exit.
#[local] Hint Resolve no_exit_ret no_exit_raise no_exit_print no_exit_call
  no_exit_call_ no_exit_stop : no_exit.

Ltac no_exit :=
  repeat first
    [ apply no_exit_bind; [ | intros ? ]
    | apply no_exit_try_except; [ | intros ? ]
    | solve [ auto with no_exit ] ].

Lemma no_exit_select df c : no_exit (select df c).
Proof.
  unfold select. case_decide; [ auto with no_exit | ].
  destruct (attribute_name c) as [ name | ]; [ | auto with no_exit ].
  destruct (positions name (columns df) 0) as [ | i [ | j l ] ];
    auto with no_exit.
Qed.

Lemma no_exit_count df : no_exit (count df).
Proof. unfold count. no_exit. Qed.

Lemma no_exit_show df n : no_exit (show df n).
Proof. unfold show. no_exit. Qed.

Lemma no_exit_safe_distinct_count df c : no_exit (safe_distinct_count df c).
Proof.
  unfold safe_distinct_count. case_decide.
  - apply no_exit_bind; [ apply no_exit_select | intros; apply no_exit_count ].
  - no_exit.
Qed.

Lemma no_exit_run_sql_query spark q : no_exit (run_sql_query spark q).
Proof.
  unfold run_sql_query. no_exit. destruct (is_PySparkException _); no_exit.
Qed.

Lemma no_exit_main_body spark df : no_exit (main_body spark df).
Proof.
  unfold main_body, printSchema, checkpoint, createOrReplaceTempView.
  repeat first
    [ apply no_exit_show | apply no_exit_count
    | apply no_exit_safe_distinct_count | apply no_exit_run_sql_query
    | apply no_exit_bind; [ | intros ? ]
    | solve [ auto with no_exit ]
    | match goal with |- no_exit (match ?r with _ => _ end) => destruct r end ].
Qed.

(** *** The resilient reader *)

Lemma read_csv_handle_exceptions_returns spark path df :
  read_csv spark path = inr df ->
  read_csv_handle_exceptions spark path = ret df.
Proof. intros E. unfold read_csv_handle_exceptions. rewrite E. reflexivity. Qed.

Lemma read_csv_handle_exceptions_raises spark path e :
  read_csv spark path = inl e ->
  read_csv_handle_exceptions spark path =
    raise (if session_stopped e then Exception restart_message
           else if path_missing e
                then FileNotFoundError ("File path does not exist: " +:+ path)
                else e).
Proof.
  intros E. unfold read_csv_handle_exceptions. rewrite E. cbn.
  destruct e; cbn; try reflexivity; unfold startswith;
    match goal with |- context [if ?b then _ else _] => destruct b end;
    reflexivity.
Qed.

Lemma no_exit_read_csv_handle_exceptions spark path :
  no_exit (read_csv_handle_exceptions spark path).
Proof.
  destruct (read_csv spark path) as [e | df] eqn:E.
  - rewrite (read_csv_handle_exceptions_raises _ _ _ E). apply no_exit_raise.
  - rewrite (read_csv_handle_exceptions_returns _ _ _ E). apply no_exit_ret.
Qed.


(** The remediation the stopped-session error carries. *)
Lemma restart_message_says_restart : contains "restart" restart_message = true.
Proof. reflexivity. Qed.

(** *** The query runner *)


(** *** The safe aggregator *)

Lemma same_name_refl (c : string) : same_name c c = true.
Proof. unfold same_name. by rewrite bool_decide_eq_true. Qed.

Lemma positions_present (c : string) cols k :
  c ∈ cols -> positions c cols k <> [].
Proof.
  revert k. induction cols as [ | x cols IH ]; intros k Hc.
  - by apply elem_of_nil in Hc.
  - cbn. destruct (same_name x c) eqn:E; [ done | ].
    apply elem_of_cons in Hc as [-> | Hc]; [ | by apply IH ].
    by rewrite same_name_refl in E.
Qed.

(** A plain name is the name the parser reads. *)
Lemma attribute_name_plain (c : string) :
  plain_name c = true -> attribute_name c = Some c /\ c <> "*".
Proof.
  unfold plain_name. rewrite !andb_true_iff, !negb_true_iff.
  rewrite bool_decide_eq_false. intros [[Hdot Hq] Hstar]. split; [ | done ].
  destruct c as [ | a c' ]; [ done | ]. unfold attribute_name.
  case_decide as Ha.
  - subst a. by destruct c'.
  - by rewrite Hdot, Hq.
Qed.

(** What [select] does with a plain name. *)
Lemma select_plain df (c : string) :
  plain_name c = true ->
  select df c =
    match positions c (columns df) 0 with
    | [i] =>
        ret {| columns := [c];
               rows := map (fun r => [cell i r]) (rows df);
               job_fault := job_fault df;
               checkpointed_fault := checkpointed_fault df;
               treeString := treeString df;
               showString := showString df |}
    | [] =>
        let m := "[UNRESOLVED_COLUMN] " +:+ c in
        raise (AnalysisException m m)
    | _ =>
        let m := "[AMBIGUOUS_REFERENCE] " +:+ c in
        raise (AnalysisException m m)
    end.
Proof.
  intros Hp. destruct (attribute_name_plain c Hp) as [Ha Hs].
  unfold select. by rewrite decide_False, Ha by done.
Qed.

Lemma remove_dups_fmap_inj {A B} `{EqDecision A} `{EqDecision B}
    (f : A -> B) `{!Inj (=) (=) f} (l : list A) :
  remove_dups (f <$> l) = f <$> remove_dups l.
Proof.
  induction l as [ | x l IH ]; cbn; [ done | ].
  destruct (decide_rel elem_of x l) as [Hx | Hx];
    destruct (decide_rel elem_of (f x) (f <$> l)) as [Hy | Hy]; cbn.
  - done.
  - destruct Hy. by apply list_elem_of_fmap_inj.
  - destruct Hx. by eapply list_elem_of_fmap_inj.
  - by rewrite IH.
Qed.

(** A null is one more distinct value. *)
Lemma distinct_values_null (vs : list (option scalar)) :
  distinct_values vs =
    distinct_non_null_values vs + (if decide (None ∈ vs) then 1 else 0).
Proof.
  unfold distinct_values, distinct_non_null_values.
  induction vs as [ | [a | ] vs IH ]; cbn; [ done | | ].
  - assert (Hin : Some a ∈ vs <-> a ∈ omap id vs).
    { rewrite list_elem_of_omap. split.
      - intros Ha. exists (Some a). done.
      - intros (x & Hx & E). cbn in E. by subst x. }
    assert (Hnone : None ∈ Some a :: vs <-> None ∈ vs).
    { rewrite elem_of_cons. split; [ intros [ ? | ? ]; done | auto ]. }
    destruct (decide_rel elem_of (Some a) vs) as [H1 | H1];
      destruct (decide_rel elem_of a (omap id vs)) as [H2 | H2];
      try tauto; cbn; rewrite IH;
      destruct (decide (None ∈ vs)), (decide (None ∈ Some a :: vs));
      try tauto; lia.
  - destruct (decide (None ∈ None :: vs)) as [ _ | Hn ];
      [ | destruct Hn; apply elem_of_cons; auto ].
    destruct (decide_rel elem_of None vs) as [H1 | H1].
    + rewrite IH. by rewrite decide_True.
    + cbn. rewrite IH. rewrite decide_False by done. lia.
Qed.

Lemma singleton_rows_distinct (i : nat) (rs : list (list (option scalar))) :
  length (remove_dups (map (fun r => [cell i r]) rs))
  = length (remove_dups (map (cell i) rs)).
Proof.
  assert (E : map (fun r => [cell i r]) rs = (fun v => [v]) <$> (cell i <$> rs))
    by (by rewrite <- list_fmap_compose).
  rewrite E, remove_dups_fmap_inj; [ by rewrite !length_fmap | ].
  intros x y. congruence.
Qed.

(** C2, as the code has it.  Let [c] be a plain name (no dot, no
    backquote, not the star) that is in [df.columns].  When exactly one
    column answers to [c], letter case apart, and the cluster runs the
    count, [safe_distinct_count] prints nothing and returns the number of
    distinct values of that column, a null being one of them: one more
    than the number of distinct non-null values when the column holds a
    null.  When the cluster fails the count, that failure is raised; when
    a second column answers to [c], an [AnalysisException] is raised.
    When [c] is not in [df.columns], the function prints a warning and
    returns 0. *)
Theorem safe_distinct_count_contract df (c : string) :
  (plain_name c = true -> c ∈ columns df ->
     (length (positions c (columns df) 0) = 1 ->
        (job_fault df Count = None ->
           safe_distinct_count df c =
             ([], Return (distinct_values (column_values df c)))
           /\ distinct_values (column_values df c) =
                distinct_non_null_values (column_values df c)
                + (if decide (None ∈ column_values df c) then 1 else 0))
        /\ (forall e, job_fault df Count = Some e ->
              safe_distinct_count df c = ([], Raise e)))
     /\ (length (positions c (columns df) 0) <> 1 ->
          exists t d, safe_distinct_count df c = ([], Raise (AnalysisException t d))))
  /\ (c ∉ columns df ->
       safe_distinct_count df c =
         ([Print ("Warning: Column '" +:+ c +:+ "' not found. Returning count=0.")],
          Return 0)).
Proof.
  split.
  - intros Hp Hc. unfold safe_distinct_count. rewrite decide_True by done.
    rewrite (select_plain df c Hp).
    pose proof (positions_present c (columns df) 0 Hc) as P.
    unfold column_values, count, distinct_values.
    destruct (positions c (columns df) 0) as [ | i [ | j l ] ]; [ done | | ].
    + split; [ intros _ | done ]. split.
      * intros Hj. split; [ | apply distinct_values_null ].
        cbn. rewrite Hj. cbn. do 2 f_equal. apply singleton_rows_distinct.
      * intros e Hj. cbn. by rewrite Hj.
    + split; [ done | intros _ ]. cbn. eauto.
  - intros Hc. unfold safe_distinct_count. by rewrite decide_False.
Qed.

(** *** The driver: where the session is stopped *)

Lemma quiet_bind {A B} (m : py A) (k : A -> py B) :
  quiet m -> (forall a, quiet (k a)) -> quiet (bind m k).
Proof.
  unfold quiet. intros Hm Hk. destruct m as [t [a | e | c]]; cbn in *; try done.
  specialize (Hk a). destruct (k a) as [t' o]. cbn in *.
  rewrite elem_of_app. tauto.
Qed.

Lemma quiet_try_except {A} (m : py A) (h : exn -> py A) :
  quiet m -> (forall e, quiet (h e)) -> quiet (try_except m h).
Proof.
  unfold quiet. intros Hm Hh. destruct m as [t [a | e | c]]; cbn in *; try done.
  specialize (Hh e). destruct (h e) as [t' o]. cbn in *.
  rewrite elem_of_app. tauto.
Qed.

Lemma quiet_ret {A} (a : A) : quiet (ret a).
Proof. apply not_elem_of_nil. Qed.

Lemma quiet_raise {A} (e : exn) : quiet (@raise A e).
Proof. apply not_elem_of_nil. Qed.

Lemma quiet_print line : quiet (print line).
Proof. unfold quiet. cbn. rewrite list_elem_of_singleton. discriminate. Qed.

Lemma quiet_call {A} (r : exn + A) : quiet (call r).
Proof. destruct r; apply not_elem_of_nil. Qed.

Lemma quiet_call_ r : quiet (call_ r).
Proof. destruct r; apply not_elem_of_nil. Qed.

Create HintDb quiet.
#[local] Hint Resolve quiet_ret quiet_raise quiet_print quiet_call
  quiet_call_ : quiet.

Ltac quiet :=
  repeat first
    [ apply quiet_bind; [ | intros ? ]
    | apply quiet_try_except; [ | intros ? ]
    | solve [ auto with quiet ]
    | match goal with |- quiet (match ?r with _ => _ end) => destruct r end
    | match goal with |- quiet (if ?b then _ else _) => destruct b end ].

Lemma quiet_select df c : quiet (select df c).
Proof. unfold select. quiet. Qed.

Lemma quiet_count df : quiet (count df).
Proof. unfold count. quiet. Qed.

Lemma quiet_show df n : quiet (show df n).
Proof. unfold show. quiet. Qed.

Lemma quiet_safe_distinct_count df c : quiet (safe_distinct_count df c).
Proof.
  unfold safe_distinct_count. case_decide; [ | quiet ].
  apply quiet_bind; [ apply quiet_select | intros; apply quiet_count ].
Qed.

Lemma quiet_run_sql_query spark q : quiet (run_sql_query spark q).
Proof. unfold run_sql_query. quiet. Qed.

Lemma stops_iff_returns_stop : stops_iff_returns stop.
Proof.
  unfold stops_iff_returns. cbn. split; [ eauto | ].
  intros _. apply list_elem_of_singleton. done.
Qed.

Lemma stops_iff_returns_bind {A B} (m : py A) (k : A -> py B) :
  quiet m -> (forall a, stops_iff_returns (k a)) ->
  stops_iff_returns (bind m k).
Proof.
  unfold quiet, stops_iff_returns. intros Hm Hk.
  destruct m as [t [a | e | c]]; cbn in *.
  - specialize (Hk a). destruct (k a) as [t' o]. cbn in *.
    rewrite elem_of_app. tauto.
  - split; [ done | intros [? ?]; done ].
  - split; [ done | intros [? ?]; done ].
Qed.

(** After a successful read the session is stopped exactly when no later
    step raises. *)
Lemma main_body_stops_iff_returns spark df :
  stops_iff_returns (main_body spark df).
Proof.
  unfold main_body, printSchema, checkpoint, createOrReplaceTempView.
  repeat first
    [ apply stops_iff_returns_stop
    | apply stops_iff_returns_bind; [ | intros ? ]
    | apply quiet_show | apply quiet_count
    | apply quiet_safe_distinct_count | apply quiet_run_sql_query
    | solve [ quiet ] ].
Qed.

(** *** The driver: how it ends *)

Lemma bind_ret_l {A B} (a : A) (k : A -> py B) : bind (ret a) k = k a.
Proof. unfold bind, ret. destruct (k a) as [t o]. reflexivity. Qed.

Lemma main_when_creation_fails e :
  main (inl e : exn + SparkSession scalar) = ([Print ("Failed to create Spark session: " +:+ str e)], SysExit 1).
Proof. reflexivity. Qed.

Lemma main_when_read_returns spark df :
  result (read_csv_handle_exceptions spark file_path) = Return df ->
  main (inr spark) = main_body spark df.
Proof.
  intros E. unfold main, create_spark_session. cbn [call try_except ret].
  rewrite bind_ret_l.
  destruct (read_csv spark file_path) as [e | df'] eqn:R.
  - rewrite (read_csv_handle_exceptions_raises _ _ _ R) in E. discriminate.
  - rewrite (read_csv_handle_exceptions_returns _ _ _ R) in E |- *.
    injection E as ->. cbn [try_except ret]. apply bind_ret_l.
Qed.

Lemma main_when_read_raises spark e :
  result (read_csv_handle_exceptions spark file_path) = Raise e ->
  main (inr spark) =
    if is_FileNotFoundError e
    then ([Print ("File error: " +:+ str e); SparkStop], SysExit 2)
    else ([Print ("Error reading CSV: " +:+ str e); SparkStop], SysExit 3).
Proof.
  intros E. unfold main, create_spark_session. cbn [call try_except ret].
  rewrite bind_ret_l.
  destruct (read_csv spark file_path) as [e' | df'] eqn:R.
  - rewrite (read_csv_handle_exceptions_raises _ _ _ R) in E |- *.
    injection E as E. rewrite E. destruct e; reflexivity.
  - rewrite (read_csv_handle_exceptions_returns _ _ _ R) in E. discriminate.
Qed.

(** The status of [main] by what the reader does.  It is 0, 1, 2 or 3: 1
    when the session cannot be created, 2 when the reader raises
    [FileNotFoundError], 3 when the reader raises anything else, 0 when
    the read and every later step succeed.  (An exception of a later
    step is not caught: the interpreter then ends with status 1 as
    well.)  Which failure of Spark the reader turns into a
    [FileNotFoundError] is another matter, settled by the text of the
    failure. *)
Theorem main_exit_status (getOrCreate : exn + SparkSession scalar) :
  exit_status (main getOrCreate) ∈ [0; 1; 2; 3]%Z
  /\ (forall e, getOrCreate = inl e -> exit_status (main getOrCreate) = 1%Z)
  /\ (forall spark e,
        getOrCreate = inr spark ->
        result (read_csv_handle_exceptions spark file_path) = Raise e ->
        exit_status (main getOrCreate)
          = if is_FileNotFoundError e then 2%Z else 3%Z)
  /\ (forall spark df,
        getOrCreate = inr spark ->
        result (read_csv_handle_exceptions spark file_path) = Return df ->
        result (main_body spark df) = Return tt ->
        exit_status (main getOrCreate) = 0%Z).
Proof.
  assert (Hraise : forall spark e,
            result (read_csv_handle_exceptions spark file_path) = Raise e ->
            exit_status (main (inr spark))
              = if is_FileNotFoundError e then 2%Z else 3%Z).
  { intros spark e E. rewrite (main_when_read_raises _ _ E).
    destruct (is_FileNotFoundError e); reflexivity. }
  split; [ | split; [ | split ] ].
  - destruct getOrCreate as [e | spark].
    + rewrite main_when_creation_fails. set_solver.
    + destruct (result (read_csv_handle_exceptions spark file_path))
        as [df | e | c] eqn:E.
      * rewrite (main_when_read_returns _ _ E). unfold exit_status.
        pose proof (no_exit_main_body spark df) as Hx. unfold no_exit in Hx.
        destruct (result (main_body spark df)) as [ [] | e | c ];
          [ set_solver | set_solver | by destruct (Hx c) ].
      * rewrite (Hraise _ _ E). destruct (is_FileNotFoundError e); set_solver.
      * destruct (no_exit_read_csv_handle_exceptions spark file_path c E).
  - intros e ->. reflexivity.
  - intros spark e -> E. by apply Hraise.
  - intros spark df -> E Hb. rewrite (main_when_read_returns _ _ E).
    unfold exit_status. by rewrite Hb.
Qed.

(** X2.  Once the session exists, [main] stops it on every path but one:
    an exception of a step after the read ends the script with the
    session still open. *)
Lemma main_stops_unless_it_raises spark :
  SparkStop ∈ trace (main (inr spark)) <->
  forall e, result (main (inr spark)) <> Raise e.
Proof.
  destruct (result (read_csv_handle_exceptions spark file_path))
    as [df | e | c] eqn:E.
  - rewrite (main_when_read_returns _ _ E).
    pose proof (main_body_stops_iff_returns spark df) as Hs.
    unfold stops_iff_returns in Hs. rewrite Hs. clear Hs. split.
    + intros [a ->]. discriminate.
    + intros Hn. pose proof (no_exit_main_body spark df) as Hx. unfold no_exit in Hx.
      destruct (result (main_body spark df)) as [ a | e | c ];
        [ eauto | by destruct (Hn e) | by destruct (Hx c) ].
  - rewrite (main_when_read_raises _ _ E).
    destruct (is_FileNotFoundError e); cbn; split;
      try discriminate; intros _; set_solver.
  - destruct (no_exit_read_csv_handle_exceptions spark file_path c E).
Qed.

End ErrorHandlingFacts.

Section ErrorHandlingExamples.
Import Py ErrorHandling Examples.


(** C2, as the specification words it, fails in three ways.
    [customer_id] holds the values 1, null, 1: the code answers 2, the
    number of distinct non-null values is 1.  The function does raise on
    a column that is there: when a second column answers to the name in
    another letter case, when the name has a dot or a backquote, and
    when the cluster fails the count.  And for a column called [*] it
    counts the distinct rows, 2 here, where the column holds one value. *)
Lemma safe_distinct_count_not_as_specified :
  (safe_distinct_count customers "customer_id" = ([], Return 2)
   /\ distinct_non_null_values (column_values customers "customer_id") = 1
   /\ result (safe_distinct_count customers "customer_id")
        <> Return (distinct_non_null_values (column_values customers "customer_id")))
  /\ ("customer_id" ∈ columns customers_two_cases
      /\ exists t d, safe_distinct_count customers_two_cases "customer_id"
                     = ([], Raise (AnalysisException t d)))
  /\ ("customer.id" ∈ columns customers_dotted
      /\ exists t d, safe_distinct_count customers_dotted "customer.id"
                     = ([], Raise (AnalysisException t d)))
  /\ ("`customer_id`" ∈ columns customers_quoted
      /\ exists t d, safe_distinct_count customers_quoted "`customer_id`"
                     = ([], Raise (AnalysisException t d)))
  /\ ("customer_id" ∈ columns customers_uncountable
      /\ safe_distinct_count customers_uncountable "customer_id"
         = ([], Raise executor_lost))
  /\ ("*" ∈ columns customers_starred
      /\ safe_distinct_count customers_starred "*" = ([], Return 2)
      /\ distinct_values (column_values customers_starred "*") = 1).
Proof.
  assert (E : safe_distinct_count customers "customer_id" = ([], Return 2))
    by (vm_compute; reflexivity).
  assert (N : distinct_non_null_values (column_values customers "customer_id") = 1)
    by (vm_compute; reflexivity).
  rewrite E, N. repeat split; try (vm_compute; reflexivity);
    try (apply (bool_decide_unpack _); vm_compute; exact I);
    try (do 2 eexists; vm_compute; reflexivity).
  cbn. discriminate.
Qed.

Lemma safe_distinct_count_contract_witness :
  safe_distinct_count customers "customer_id" = ([], Return 2)
  /\ safe_distinct_count customers "email" =
       ([Print "Warning: Column 'email' not found. Returning count=0."], Return 0).
Proof.
  split.
  - refine (proj1 (proj1 (proj1 (proj1
             (safe_distinct_count_contract customers "customer_id") _ _) _) _)).
    + reflexivity.
    + apply (bool_decide_unpack _). vm_compute. exact I.
    + reflexivity.
    + reflexivity.
  - apply (proj2 (safe_distinct_count_contract customers "email")).
    apply (bool_decide_unpack _). vm_compute. exact I.
Defined.

(** C8 fails on the code: the read succeeds, [df.show(5)] raises, nothing
    catches it, and the script ends (status 1) without [spark.stop()]. *)
Theorem main_leaves_session_open :
  let r := main (inr (session_reading customers_unshowable)) in
  r = ([Print "root"], Raise executor_lost)
  /\ (SparkStop ∉ trace r)
  /\ exit_status r = 1%Z.
Proof.
  intros r.
  assert (E : r = ([Print "root"], Raise executor_lost))
    by (vm_compute; reflexivity).
  rewrite E. repeat split. cbn. rewrite list_elem_of_singleton. discriminate.
Qed.

(** On the same cluster without the fault, and when the read fails, the
    session is stopped. *)
Lemma main_stops_session_otherwise :
  SparkStop ∈ trace (main (inr (session_reading customers)))
  /\ SparkStop ∈ trace (main (inr (session_failing stopped_context_error))).
Proof.
  assert (E1 : trace (main (inr (session_reading customers)))
               = [Print "root"; Print "rows"; Print "Unique customers count: 2";
                  Print "Checkpointed DataFrame count: 3";
                  Print "SQL error: [TABLE_OR_VIEW_NOT_FOUND] nonexistent_table";
                  Print "SQL error: [TABLE_OR_VIEW_NOT_FOUND] nonexistent_table";
                  SparkStop]) by (vm_compute; reflexivity).
  assert (E2 : trace (main (inr (session_failing stopped_context_error)))
               = [Print "Error reading CSV: Spark session has been stopped. Please restart it.";
                  SparkStop]) by (vm_compute; reflexivity).
  rewrite E1, E2. split; set_solver.
Qed.

(** C6, where the code departs from it.  The reader tells a missing path
    by the text of the failure, and looks for a text that opens with a
    quote (line 46).  A failure so worded ends the script with status 2.
    The failure Spark raises for a path that is not there is worded by
    the error class [PATH_NOT_FOUND], without the quote: the reader
    passes it on as it is, the driver takes it for an unexpected error,
    prints [Error reading CSV], stops the session and ends with status
    3. *)
Example main_on_missing_path :
  exit_status (main (inr (session_failing path_does_not_exist_quoted))) = 2%Z
  /\ main (inr (session_failing path_not_found_error_class))
     = ([Print "Error reading CSV: [PATH_NOT_FOUND] Path does not exist: hdfs:///user/data/customers.csv.";
         SparkStop],
        SysExit 3%Z)
  /\ exit_status (main (inr (session_failing path_not_found_error_class))) = 3%Z.
Proof. repeat split; vm_compute; reflexivity. Qed.

End ErrorHandlingExamples.

(** ** The merge script *)

Section ETLFacts.
Import Py EmployeeETL.
Variable numeric_literal : string -> option Q.
Variable copy_on_write : bool.
Local Open Scope st_scope.

Lemma frame_positions_names (key : string) (f g : DataFrame) k :
  names f = names g -> positions key f k = positions key g k.
Proof.
  revert g k. induction f as [ | [n d] f IH ]; intros [ | [n' d'] g ] k E;
    cbn in *; try done.
  injection E as -> E. case_decide; [ f_equal | ]; auto.
Qed.

Lemma frame_positions_absent (key : string) (f : DataFrame) k :
  key ∉ names f -> positions key f k = [].
Proof.
  revert k. induction f as [ | [n d] f IH ]; intros k Hk; cbn in *; [ done | ].
  apply not_elem_of_cons in Hk as [Hn Hk]. case_decide; [ congruence | auto ].
Qed.

Lemma frame_positions_nil (key : string) (f : DataFrame) k :
  positions key f k = [] -> key ∉ names f.
Proof.
  revert k. induction f as [ | [n d] f IH ]; intros k E; cbn in *.
  - apply not_elem_of_nil.
  - case_decide; [ done | ]. apply not_elem_of_cons. split; [ congruence | eauto ].
Qed.

(** Exactly one column called [key]: the frame splits around it. *)
Lemma frame_positions_single (key : string) (f : DataFrame) k p :
  positions key f k = [p] ->
  exists pre d post,
    f = pre ++ (key, d) :: post /\ p = k + length pre /\
    (key ∉ names pre) /\ (key ∉ names post).
Proof.
  revert k. induction f as [ | [n d] f IH ]; intros k E; cbn in *; [ done | ].
  case_decide as Hn.
  - subst n. injection E as <- E. exists [], d, f. cbn.
    repeat split; [ lia | apply not_elem_of_nil | by eapply frame_positions_nil ].
  - destruct (IH _ E) as (pre & d' & post & -> & -> & Hpre & Hpost).
    exists ((n, d) :: pre), d', post. cbn.
    repeat split; [ lia | | done ].
    apply not_elem_of_cons. split; [ congruence | done ].
Qed.

Lemma frame_positions_middle (key : string) (pre post : DataFrame) d k :
  key ∉ names pre -> key ∉ names post ->
  positions key (pre ++ (key, d) :: post) k = [k + length pre].
Proof.
  revert k. induction pre as [ | [n x] pre IH ]; intros k Hpre Hpost; cbn in *.
  - rewrite decide_True by done. rewrite frame_positions_absent by done. f_equal. lia.
  - apply not_elem_of_cons in Hpre as [Hn Hpre].
    rewrite decide_False by congruence. rewrite IH by done. f_equal. lia.
Qed.

Lemma map_unless_absent (key : string) (g : string * list cell -> string * list cell)
    (f : DataFrame) :
  key ∉ names f ->
  map (fun col => if decide (col.1 = key) then g col else col) f = f.
Proof.
  induction f as [ | [n d] f IH ]; intros Hk; cbn in *; [ done | ].
  apply not_elem_of_cons in Hk as [Hn Hk].
  rewrite decide_False by congruence. by rewrite IH.
Qed.

Lemma map_at_single (key : string) (g : string * list cell -> string * list cell)
    (pre post : DataFrame) d :
  key ∉ names pre -> key ∉ names post ->
  map (fun col => if decide (col.1 = key) then g col else col)
      (pre ++ (key, d) :: post)
  = pre ++ g (key, d) :: post.
Proof.
  intros Hpre Hpost. rewrite map_app. cbn. rewrite decide_True by done.
  by rewrite !map_unless_absent.
Qed.

Lemma existsb_is_text_coerce data :
  existsb is_text (map (coerce numeric_literal) data) = false.
Proof.
  induction data as [ | [ | q | s ] data IH ]; cbn; try done.
  destruct (numeric_literal s); done.
Qed.


(** **** The calls, one at a time *)

Lemma bind_returns {S A B} (m : Py.st S A) (k : A -> Py.st S B) w a w' :
  m w = (inr a, w') -> st_bind m k w = k a w'.
Proof. unfold st_bind. by intros ->. Qed.

Lemma bind_raises {S A B} (m : Py.st S A) (k : A -> Py.st S B) w e w' :
  m w = (inl e, w') -> st_bind m k w = (inl e, w').
Proof. unfold st_bind. by intros ->. Qed.

Lemma load_returns a f w :
  heap w !! a = Some f -> load a w = (inr f, w).
Proof. unfold load. by intros ->. Qed.

Lemma heap_stored a f g w :
  heap w !! a = Some f -> heap (with_heap (<[a := g]> (heap w)) w) !! a = Some g.
Proof. intros Hf. cbn. apply list_lookup_insert_eq. by eapply lookup_lt_Some. Qed.

Lemma rename_returns a f w mapper :
  heap w !! a = Some f ->
  rename a mapper w = (inr tt, with_heap (<[a := rename_frame mapper f]> (heap w)) w).
Proof.
  intros Hf. unfold rename. by rewrite (bind_returns _ _ _ _ _ (load_returns _ _ _ Hf)).
Qed.

Lemma getitem_series a f w key p :
  heap w !! a = Some f -> positions key f 0 = [p] ->
  getitem a key w = (inr (SeriesOf a p), w).
Proof.
  intros Hf P. unfold getitem.
  rewrite (bind_returns _ _ _ _ _ (load_returns _ _ _ Hf)). by rewrite P.
Qed.

Lemma getitem_missing a f w key :
  heap w !! a = Some f -> positions key f 0 = [] ->
  getitem a key w = (inl (KeyError key), w).
Proof.
  intros Hf P. unfold getitem.
  rewrite (bind_returns _ _ _ _ _ (load_returns _ _ _ Hf)). by rewrite P.
Qed.

Lemma getitem_frame a f w key p p' ps :
  heap w !! a = Some f -> positions key f 0 = p :: p' :: ps ->
  exists g, getitem a key w = (inr (Frame g), w).
Proof.
  intros Hf P. unfold getitem.
  rewrite (bind_returns _ _ _ _ _ (load_returns _ _ _ Hf)). rewrite P. eauto.
Qed.

Lemma cells_returns a f w p col :
  heap w !! a = Some f -> f !! p = Some col ->
  cells a p w = (inr col.2, w).
Proof.
  intros Hf Hp. unfold cells.
  rewrite (bind_returns _ _ _ _ _ (load_returns _ _ _ Hf)). by rewrite Hp.
Qed.

Lemma to_numeric_series a f w p col :
  heap w !! a = Some f -> f !! p = Some col ->
  to_numeric numeric_literal (SeriesOf a p) w
  = (inr (map (coerce numeric_literal) col.2), w).
Proof.
  intros Hf Hp. unfold to_numeric.
  by rewrite (bind_returns _ _ _ _ _ (cells_returns _ _ _ _ _ Hf Hp)).
Qed.

Lemma median_series a f w p col :
  heap w !! a = Some f -> f !! p = Some col ->
  existsb is_text col.2 = false ->
  median (SeriesOf a p) w = (inr (median_of (numeric_values col.2)), w).
Proof.
  intros Hf Hp Ht. unfold median.
  rewrite (bind_returns _ _ _ _ _ (cells_returns _ _ _ _ _ Hf Hp)).
  by rewrite Ht.
Qed.

Lemma fillna_inplace_series a f w p col value :
  heap w !! a = Some f -> f !! p = Some col ->
  fillna_inplace copy_on_write (SeriesOf a p) value w
  = (inr tt,
     if copy_on_write then w
     else with_heap (<[a := <[p := (col.1, fill value col.2)]> f]> (heap w)) w).
Proof.
  intros Hf Hp. unfold fillna_inplace.
  rewrite (bind_returns _ _ _ _ _ (load_returns _ _ _ Hf)). rewrite Hp.
  by destruct copy_on_write.
Qed.

Lemma setitem_returns a f w key value :
  heap w !! a = Some f ->
  setitem a key value w
  = (inr tt, with_heap (<[a := set_column key value f]> (heap w)) w).
Proof.
  intros Hf. unfold setitem.
  by rewrite (bind_returns _ _ _ _ _ (load_returns _ _ _ Hf)).
Qed.

Lemma set_column_single key value (pre post : DataFrame) d :
  key ∉ names pre -> key ∉ names post ->
  set_column key value (pre ++ (key, d) :: post) = pre ++ (key, value) :: post.
Proof.
  intros Hpre Hpost. unfold set_column. rewrite decide_True.
  - by rewrite (map_at_single key (fun col => (col.1, value))).
  - unfold names. rewrite map_app. cbn. set_solver.
Qed.

(** The body of the loop is [standardize] on the frame the variable
    refers to; when it raises, the frame is left renamed. *)
Lemma loop_body_spec a f w :
  heap w !! a = Some f ->
  loop_body numeric_literal copy_on_write a w =
    match standardize numeric_literal copy_on_write f with
    | inr f' => (inr tt, with_heap (<[a := f']> (heap w)) w)
    | inl e => (inl e, with_heap (<[a := rename_frame columns f]> (heap w)) w)
    end.
Proof.
  intros Hf. unfold loop_body, standardize.
  set (f1 := rename_frame columns f).
  rewrite (bind_returns _ _ _ _ _ (rename_returns _ _ _ _ Hf)). fold f1.
  pose proof (heap_stored a f f1 w Hf) as H1.
  set (w1 := with_heap (<[a := f1]> (heap w)) w) in *.
  destruct (positions "Salary" f1 0) as [ | p [ | p' ps ] ] eqn:P.
  - by rewrite (bind_raises _ _ _ _ _ (getitem_missing _ _ _ _ H1 P)).
  - destruct (frame_positions_single _ _ _ _ P) as (pre & d & post & E & -> & Hpre & Hpost).
    cbn [Nat.add] in *.
    assert (Hp : f1 !! length pre = Some ("Salary", d))
      by (rewrite E; by apply list_lookup_middle).
    rewrite (bind_returns _ _ _ _ _ (getitem_series _ _ _ _ _ H1 P)).
    rewrite (bind_returns _ _ _ _ _ (to_numeric_series _ _ _ _ _ H1 Hp)).
    cbn [snd].
    set (numeric := map (coerce numeric_literal) d).
    rewrite (bind_returns _ _ _ _ _ (setitem_returns _ _ _ _ numeric H1)).
    pose proof (heap_stored a f1 (set_column "Salary" numeric f1) w1 H1) as H2.
    set (w2 := with_heap _ w1) in *.
    rewrite E, set_column_single in H2 by done.
    assert (P2 : positions "Salary" (pre ++ ("Salary", numeric) :: post) 0
                 = [length pre]) by (by rewrite frame_positions_middle).
    assert (Hp2 : (pre ++ ("Salary", numeric) :: post) !! length pre
                  = Some ("Salary", numeric)) by (by apply list_lookup_middle).
    rewrite (bind_returns _ _ _ _ _ (getitem_series _ _ _ _ _ H2 P2)).
    rewrite (bind_returns _ _ _ _ _ (getitem_series _ _ _ _ _ H2 P2)).
    rewrite (bind_returns _ _ _ _ _
               (median_series _ _ _ _ _ H2 Hp2 (existsb_is_text_coerce d))).
    rewrite (fillna_inplace_series _ _ _ _ _ _ H2 Hp2).
    f_equal. subst w2 w1. unfold with_heap. cbn [heap stdout written].
    rewrite E, (map_at_single "Salary"
                  (fun col => (col.1, impute numeric_literal copy_on_write col.2)))
      by done.
    rewrite set_column_single by done. unfold impute. cbn [snd fst]. fold numeric.
    destruct copy_on_write; f_equal; rewrite !list_insert_insert_eq; f_equal.
    by rewrite insert_app_r_alt, Nat.sub_diag by lia.
  - destruct (getitem_frame _ _ _ _ _ _ _ H1 P) as [g G].
    by rewrite (bind_returns _ _ _ _ _ G).
Qed.

(** The only exceptions of the body: no salary column, or several.  The
    median and the fill never raise. *)
Lemma loop_body_raises a f w e w' :
  heap w !! a = Some f ->
  loop_body numeric_literal copy_on_write a w = (inl e, w') ->
  e = KeyError "Salary"
  \/ e = TypeError "arg must be a list, tuple, 1-d array, or Series".
Proof.
  intros Hf. rewrite (loop_body_spec _ _ _ Hf). unfold standardize.
  destruct (positions "Salary" (rename_frame columns f) 0) as [ | p [ | p' ps ] ];
    intros [= <- _]; auto.
Qed.

(** **** The loops *)

Lemma with_heap_same w : with_heap (heap w) w = w.
Proof. by destruct w. Qed.

Lemma read_all_returns files frames w :
  collect (map snd files) = inr frames ->
  read_all files w
  = (inr (seq (length (heap w)) (length frames)), with_heap (heap w ++ frames) w).
Proof.
  revert frames w. induction files as [ | [n [e | f]] files IH ];
    intros frames w C; cbn in C.
  - injection C as <-. cbn. by rewrite app_nil_r, with_heap_same.
  - done.
  - destruct (collect (map snd files)) as [e | frames'] eqn:C'; [ done | ].
    injection C as <-. cbn [read_all].
    assert (A : read_csv (n, inr f) w
                = (inr (length (heap w)), with_heap (heap w ++ [f]) w))
      by reflexivity.
    rewrite (bind_returns _ _ _ _ _ A).
    rewrite (bind_returns _ _ _ _ _ (IH _ _ eq_refl)).
    unfold st_ret, with_heap. cbn [heap stdout written length seq].
    rewrite length_app, <- app_assoc. cbn [length app].
    by rewrite Nat.add_1_r.
Qed.

Lemma read_all_raises files e w :
  collect (map snd files) = inl e ->
  exists h, read_all files w = (inl e, with_heap h w).
Proof.
  revert w. induction files as [ | [n [e' | f]] files IH ]; intros w C; cbn in C.
  - done.
  - injection C as ->. exists (heap w). cbn. by rewrite with_heap_same.
  - destruct (collect (map snd files)) as [e' | frames'] eqn:C'; [ | done ].
    injection C as ->. cbn [read_all].
    assert (A : read_csv (n, inr f) w
                = (inr (length (heap w)), with_heap (heap w ++ [f]) w))
      by reflexivity.
    rewrite (bind_returns _ _ _ _ _ A).
    destruct (IH (with_heap (heap w ++ [f]) w) eq_refl) as [h Hh].
    rewrite (bind_raises _ _ _ _ _ Hh). by exists h.
Qed.

Lemma loop_returns frames fs pre acc w :
  heap w = pre ++ frames ->
  collect (map (standardize numeric_literal copy_on_write) frames) = inr fs ->
  loop numeric_literal copy_on_write (seq (length pre) (length frames)) acc w
  = (inr (acc ++ seq (length pre) (length frames)), with_heap (pre ++ fs) w).
Proof.
  revert fs pre acc w. induction frames as [ | f frames IH ];
    intros fs pre acc w Hw C; cbn in C.
  - injection C as <-. cbn. rewrite !app_nil_r in *.
    by rewrite <- Hw, with_heap_same.
  - destruct (standardize numeric_literal copy_on_write f) as [e | f'] eqn:S; [ done | ].
    destruct (collect _) as [e | fs'] eqn:C'; [ done | ].
    injection C as <-. cbn [length seq loop].
    assert (Hf : heap w !! length pre = Some f)
      by (rewrite Hw; by apply list_lookup_middle).
    pose proof (loop_body_spec _ _ _ Hf) as B. rewrite S in B.
    rewrite (bind_returns _ _ _ _ _ B).
    assert (Hw' : heap (with_heap (<[length pre := f']> (heap w)) w)
                  = (pre ++ [f']) ++ frames).
    { cbn. rewrite Hw, insert_app_r_alt, Nat.sub_diag by lia.
      cbn. by rewrite <- app_assoc. }
    pose proof (IH fs' (pre ++ [f']) (acc ++ [length pre]) _ Hw' eq_refl) as L.
    rewrite length_app, Nat.add_1_r in L. cbn [length] in L. rewrite L.
    by rewrite <- !app_assoc.
Qed.

Lemma loop_raises frames e pre acc w :
  heap w = pre ++ frames ->
  collect (map (standardize numeric_literal copy_on_write) frames) = inl e ->
  exists h, loop numeric_literal copy_on_write (seq (length pre) (length frames)) acc w
            = (inl e, with_heap h w).
Proof.
  revert pre acc w. induction frames as [ | f frames IH ];
    intros pre acc w Hw C; cbn in C; [ done | ].
  assert (Hf : heap w !! length pre = Some f)
    by (rewrite Hw; by apply list_lookup_middle).
  pose proof (loop_body_spec _ _ _ Hf) as B.
  cbn [length seq loop].
  destruct (standardize numeric_literal copy_on_write f) as [e' | f'] eqn:S.
  - injection C as ->. rewrite (bind_raises _ _ _ _ _ B). eauto.
  - destruct (collect _) as [e' | fs'] eqn:C'; [ | done ].
    injection C as ->. rewrite (bind_returns _ _ _ _ _ B).
    assert (Hw' : heap (with_heap (<[length pre := f']> (heap w)) w)
                  = (pre ++ [f']) ++ frames).
    { cbn. rewrite Hw, insert_app_r_alt, Nat.sub_diag by lia.
      cbn. by rewrite <- app_assoc. }
    destruct (IH (pre ++ [f']) (acc ++ [length pre]) _ Hw' eq_refl) as [h L].
    rewrite length_app, Nat.add_1_r in L. cbn [length] in L. rewrite L.
    by exists h.
Qed.

Lemma load_all_returns fs pre w :
  heap w = pre ++ fs ->
  load_all (seq (length pre) (length fs)) w = (inr fs, w).
Proof.
  revert pre. induction fs as [ | f fs IH ]; intros pre Hw; [ done | ].
  cbn [length seq load_all].
  assert (Hf : heap w !! length pre = Some f)
    by (rewrite Hw; by apply list_lookup_middle).
  rewrite (bind_returns _ _ _ _ _ (load_returns _ _ _ Hf)).
  assert (Hw' : heap w = (pre ++ [f]) ++ fs) by (by rewrite <- app_assoc).
  pose proof (IH _ Hw') as L. rewrite length_app, Nat.add_1_r in L.
  cbn [length] in L. by rewrite (bind_returns _ _ _ _ _ L).
Qed.

(** **** The script is the pipeline *)

Theorem run_refines directory :
  match pipeline numeric_literal copy_on_write directory with
  | inr m =>
      exists h, run numeric_literal copy_on_write directory =
        (inr tt, {| heap := h;
                    stdout := [" Employee master dataset saved!"];
                    written := {[ "clean_employee_master.csv" := m ]} |})
  | inl e =>
      exists h, run numeric_literal copy_on_write directory =
        (inl e, {| heap := h; stdout := []; written := ∅ |})
  end.
Proof.
  unfold pipeline, sources, run, script.
  set (w0 := {| heap := []; stdout := []; written := ∅ |}).
  destruct (collect (map snd (glob directory))) as [e | frames] eqn:R.
  - destruct (read_all_raises _ _ w0 R) as [h Hh].
    rewrite (bind_raises _ _ _ _ _ Hh). by exists h.
  - rewrite (bind_returns _ _ _ _ _ (read_all_returns _ _ w0 R)).
    cbn [heap w0 app length].
    set (w1 := with_heap frames w0).
    assert (H1 : heap w1 = [] ++ frames) by reflexivity.
    destruct (collect (map (standardize numeric_literal copy_on_write) frames)) as [e | fs] eqn:C.
    + destruct (loop_raises _ _ _ [] _ H1 C) as [h Hh].
      cbn [length] in Hh. rewrite (bind_raises _ _ _ _ _ Hh). by exists h.
    + pose proof (loop_returns _ _ _ [] _ H1 C) as L. cbn [length app] in L.
      rewrite (bind_returns _ _ _ _ _ L).
      assert (E : length frames = length fs).
      { clear -C. revert fs C. induction frames as [ | f frames IH ];
          intros fs C; cbn in C.
        - by injection C as <-.
        - destruct (standardize _ _ f); [ done | ].
          destruct (collect _); [ done | ]. injection C as <-. cbn.
          f_equal. by apply IH. }
      rewrite E. unfold concat.
      set (w2 := with_heap fs w1).
      assert (H2 : heap w2 = [] ++ fs) by reflexivity.
      pose proof (load_all_returns _ _ _ H2) as A. cbn [length] in A.
      destruct (concat_frames fs) as [e | m] eqn:K.
      * rewrite (bind_raises _ _ w2 e w2); [ by exists fs | ].
        by rewrite (bind_returns _ _ _ _ _ A), K.
      * rewrite (bind_returns _ _ w2 (length fs) (with_heap (fs ++ [m]) w2));
          [ | by rewrite (bind_returns _ _ _ _ _ A), K ].
        unfold to_csv.
        assert (Hm : heap (with_heap (fs ++ [m]) w2) !! length fs = Some m)
          by (by apply list_lookup_middle).
        rewrite (bind_returns _ _ _ _ _
                   (bind_returns _ _ _ _ _ (load_returns _ _ _ Hm))).
        exists (fs ++ [m]). cbn. by rewrite insert_empty.
Qed.

End ETLFacts.

Section MergeFacts.
Import Py EmployeeETL.
Local Open Scope st_scope.
Variable numeric_literal : string -> option Q.
Variable copy_on_write : bool.

(** **** Columns of stacked frames *)

Lemma lookup_column_names (c : string) (f : DataFrame) :
  is_Some (lookup_column c f) <-> c ∈ names f.
Proof.
  induction f as [ | [n d] f IH ]; cbn.
  - split; [ by intros [? ?] | by intros ?%elem_of_nil ].
  - case_decide as Hn.
    + subst n. split; [ intros _; apply elem_of_cons; auto | eauto ].
    + rewrite IH, elem_of_cons. split; [ auto | intros [ ? | ? ]; [ congruence | done ] ].
Qed.

Lemma lookup_column_map (c : string) (g : list cell -> list cell) (f : DataFrame) :
  lookup_column c
    (map (fun col => if decide (col.1 = c) then (col.1, g col.2) else col) f)
  = g <$> lookup_column c f.
Proof.
  induction f as [ | [n d] f IH ]; cbn; [ done | ].
  case_decide as Hn; cbn.
  - by rewrite decide_True.
  - by rewrite decide_False.
Qed.

Lemma names_map_cells (g : string * list cell -> string * list cell) (f : DataFrame) :
  (forall col, (g col).1 = col.1) -> names (map g f) = names f.
Proof.
  intros Hg. unfold names. rewrite map_map. apply map_ext. auto.
Qed.

Lemma below_names (a b : DataFrame) :
  names a = names b -> names (below a b) = names a.
Proof.
  revert b. induction a as [ | [n d] a IH ]; intros [ | [n' d'] b ] E;
    cbn in *; try done.
  injection E as -> E. f_equal. by apply IH.
Qed.

Lemma below_lookup (c : string) (a b : DataFrame) x y :
  names a = names b ->
  lookup_column c a = Some x -> lookup_column c b = Some y ->
  lookup_column c (below a b) = Some (x ++ y).
Proof.
  revert b. induction a as [ | [n d] a IH ]; intros [ | [n' d'] b ] E Ha Hb;
    cbn in *; try done.
  injection E as -> E. case_decide.
  - by simplify_eq.
  - by apply IH.
Qed.

Lemma stack_names (d : DataFrame) (rest : list DataFrame) :
  Forall (fun f => names d = names f) rest ->
  names (stack (d :: rest)) = names d.
Proof.
  cbn [stack]. revert d. induction rest as [ | f rest IH ]; intros d Hn; [ done | ].
  apply Forall_cons in Hn as [Hdf Hn]. cbn [foldl].
  rewrite IH; rewrite below_names by done; done.
Qed.

Lemma stack_lookup (c : string) (d : DataFrame) (rest : list DataFrame) :
  Forall (fun f => names d = names f) rest ->
  Forall (fun f => is_Some (lookup_column c f)) (d :: rest) ->
  lookup_column c (stack (d :: rest))
  = Some (List.concat (map (column_of c) (d :: rest))).
Proof.
  cbn [stack]. revert d. induction rest as [ | f rest IH ]; intros d Hn Hc.
  - apply Forall_cons in Hc as [[x Hx] _]. cbn.
    unfold column_of. rewrite Hx. cbn. by rewrite app_nil_r.
  - apply Forall_cons in Hn as [Hdf Hn].
    apply Forall_cons in Hc as [[x Hx] Hc].
    pose proof Hc as Hc'. apply Forall_cons in Hc' as [[y Hy] Hrest].
    cbn [foldl]. rewrite IH.
    + cbn. unfold column_of at 1 3 4.
      rewrite (below_lookup _ _ _ _ _ Hdf Hx Hy), Hx, Hy. cbn.
      by rewrite app_assoc.
    + by rewrite below_names.
    + apply Forall_cons. split; [ | done ].
      rewrite (below_lookup _ _ _ _ _ Hdf Hx Hy). eauto.
Qed.

Lemma reindex_names cols (f : DataFrame) : names (reindex cols f) = cols.
Proof.
  unfold names, reindex. rewrite map_map. cbn. apply map_id.
Qed.

Lemma reindex_lookup (c : string) cols (f : DataFrame) :
  c ∈ cols ->
  lookup_column c (reindex cols f)
  = Some (default (replicate (nrows f) NaN) (lookup_column c f)).
Proof.
  unfold reindex. induction cols as [ | x cols IH ]; intros Hc; cbn.
  - by apply elem_of_nil in Hc.
  - case_decide as Hx; [ by subst x | ].
    apply elem_of_cons in Hc as [ -> | Hc ]; [ done | by apply IH ].
Qed.

Lemma elem_of_union_names (c : string) (fs : list DataFrame) :
  c ∈ union_names fs <-> exists f, f ∈ fs /\ c ∈ names f.
Proof.
  unfold union_names.
  rewrite elem_of_reverse, elem_of_remove_dups, elem_of_reverse.
  rewrite list_elem_of_In, in_concat. split.
  - intros (l & (f & <- & Hf)%in_map_iff & Hc). exists f.
    by rewrite !list_elem_of_In.
  - intros (f & Hf & Hc). exists (names f). rewrite in_map_iff.
    split; [ exists f; split; [ done | ] | ]; by apply list_elem_of_In.
Qed.


Ltac fold_stack :=
  match goal with
  | |- context [foldl below ?x ?y] =>
      change (foldl below x y) with (stack (x :: y))
  end.

Lemma same_names_all (d : DataFrame) (rest : list DataFrame) :
  forallb (same_names d) rest = true ->
  Forall (fun f => names d = names f) rest.
Proof.
  rewrite forallb_forall, Forall_forall. intros Hs f Hf.
  apply list_elem_of_In, Hs in Hf. by apply bool_decide_eq_true in Hf.
Qed.

Lemma reindexed_same_names cols (d : DataFrame) (rest : list DataFrame) :
  Forall (fun f => names (reindex cols d) = names f) (map (reindex cols) rest).
Proof.
  apply Forall_forall. intros f (g & -> & _)%list_elem_of_fmap.
  by rewrite !reindex_names.
Qed.

(** A column every frame has is, in the concatenation, the columns of the
    frames one after the other. *)
Lemma concat_frames_column (c : string) (fs : list DataFrame) m :
  concat_frames fs = inr m ->
  Forall (fun f => is_Some (lookup_column c f)) fs ->
  lookup_column c m = Some (List.concat (map (column_of c) fs)).
Proof.
  destruct fs as [ | d rest ]; [ done | ]. unfold concat_frames.
  intros K Hc. destruct (forallb (same_names d) rest) eqn:S.
  - injection K as <-. fold_stack.
    apply stack_lookup; [ by apply same_names_all | done ].
  - destruct (forallb has_unique_names (d :: rest)); [ | done ].
    injection K as <-. set (U := union_names (d :: rest)).
    assert (HU : c ∈ U).
    { apply elem_of_union_names. exists d. split; [ apply elem_of_cons; auto | ].
      apply lookup_column_names. by apply Forall_cons in Hc as [? _]. }
    cbn [map]. fold_stack. rewrite stack_lookup.
    + f_equal. f_equal. change (reindex U d :: map (reindex U) rest)
        with (map (reindex U) (d :: rest)).
      change (column_of c d :: map (column_of c) rest)
        with (map (column_of c) (d :: rest)).
      rewrite map_map. apply map_ext_in. intros f Hf%list_elem_of_In.
      rewrite Forall_forall in Hc. destruct (Hc f Hf) as [x Hx].
      unfold column_of. rewrite reindex_lookup, Hx by done. done.
    + apply reindexed_same_names.
    + change (reindex U d :: map (reindex U) rest)
        with (map (reindex U) (d :: rest)).
      apply Forall_forall. intros f (g & -> & _)%list_elem_of_fmap.
      rewrite reindex_lookup by done. eauto.
Qed.



(** **** One frame *)

Lemma names_rename_frame (f : DataFrame) :
  names (rename_frame columns f) = map canonical (names f).
Proof. unfold names, rename_frame. by rewrite !map_map. Qed.

Lemma frame_positions_unique (c : string) (f : DataFrame) k :
  NoDup (names f) -> c ∈ names f -> exists p, positions c f k = [p].
Proof.
  revert k. induction f as [ | [n d] f IH ]; intros k Hd Hc; cbn in *.
  - by apply elem_of_nil in Hc.
  - apply NoDup_cons in Hd as [Hn Hd]. case_decide as E.
    + subst n. rewrite frame_positions_absent by done. eauto.
    + apply elem_of_cons in Hc as [ -> | Hc ]; [ done | by apply IH ].
Qed.

Lemma standardize_returns (f f' : DataFrame) :
  standardize numeric_literal copy_on_write f = inr f' ->
  names f' = map canonical (names f)
  /\ lookup_column "Salary" f' = Some (impute numeric_literal copy_on_write (salary_source f)).
Proof.
  unfold standardize, salary_source.
  destruct (positions "Salary" (rename_frame columns f) 0)
    as [ | p [ | p' ps ] ] eqn:P; try done.
  intros [= <-]. split.
  - rewrite names_map_cells, names_rename_frame; [ done | ].
    intros col. by case_decide.
  - rewrite lookup_column_map.
    destruct (frame_positions_single _ _ _ _ P) as (pre & d & post & E & _ & _ & _).
    assert (S : is_Some (lookup_column "Salary" (rename_frame columns f))).
    { apply lookup_column_names. rewrite E. unfold names. rewrite map_app.
      cbn. set_solver. }
    destruct S as [x ->]. done.
Qed.

Lemma standardize_succeeds (f : DataFrame) :
  NoDup (map canonical (names f)) -> "Salary" ∈ map canonical (names f) ->
  exists f', standardize numeric_literal copy_on_write f = inr f'.
Proof.
  intros Hd Hs. unfold standardize.
  rewrite <- names_rename_frame in Hd, Hs.
  destruct (frame_positions_unique _ _ 0 Hd Hs) as [p ->]. eauto.
Qed.

Lemma collect_returns {A B} (g : A -> exn + B) l l' :
  collect (map g l) = inr l' -> Forall2 (fun a b => g a = inr b) l l'.
Proof.
  revert l'. induction l as [ | a l IH ]; intros l' C; cbn in C.
  - injection C as <-. constructor.
  - destruct (g a) as [e | b] eqn:G; [ done | ].
    destruct (collect (map g l)) as [e | l''] eqn:C'; [ done | ].
    injection C as <-. constructor; auto.
Qed.

Lemma collect_succeeds {A B} (g : A -> exn + B) l :
  Forall (fun a => exists b, g a = inr b) l ->
  exists l', collect (map g l) = inr l'.
Proof.
  induction 1 as [ | a l [b G] _ [l' IH] ]; cbn; [ eauto | ].
  rewrite G, IH. eauto.
Qed.

Lemma standardized_salaries (frames fs : list DataFrame) :
  Forall2 (fun f f' => standardize numeric_literal copy_on_write f = inr f') frames fs ->
  Forall (fun f' => is_Some (lookup_column "Salary" f')) fs
  /\ map (column_of "Salary") fs
     = map (fun f => impute numeric_literal copy_on_write (salary_source f)) frames.
Proof.
  induction 1 as [ | f f' frames fs S _ [IH1 IH2] ]; [ done | ].
  destruct (standardize_returns _ _ S) as [_ L]. split.
  - constructor; [ rewrite L; eauto | done ].
  - cbn. unfold column_of at 1. rewrite L, IH2. done.
Qed.

(** **** The file the script writes *)

Lemma master_pipeline directory m :
  master numeric_literal copy_on_write directory = Some m <->
  pipeline numeric_literal copy_on_write directory = inr m.
Proof.
  pose proof (run_refines numeric_literal copy_on_write directory) as R. unfold master.
  destruct (pipeline numeric_literal copy_on_write directory) as [e | m'];
    destruct R as [h ->]; cbn.
  - rewrite lookup_empty. split; done.
  - rewrite lookup_singleton_eq. split; congruence.
Qed.

(** The salary column of the merged output: the salary columns of the
    source files after lines 23-24, in the order of the files. *)
Lemma master_salary directory frames m :
  sources directory = inr frames ->
  master numeric_literal copy_on_write directory = Some m ->
  lookup_column "Salary" m
  = Some (List.concat
            (map (fun f => impute numeric_literal copy_on_write (salary_source f)) frames)).
Proof.
  intros Hs Hm. apply master_pipeline in Hm. unfold pipeline in Hm.
  rewrite Hs in Hm.
  destruct (collect (map (standardize numeric_literal copy_on_write) frames))
    as [e | fs] eqn:C; [ done | ].
  destruct (standardized_salaries _ _ (collect_returns _ _ _ C)) as [HS <-].
  by apply concat_frames_column.
Qed.

Lemma length_fill m data : length (fill m data) = length data.
Proof. destruct m; cbn; [ apply length_map | done ]. Qed.

Lemma length_impute data :
  length (impute numeric_literal copy_on_write data) = length data.
Proof.
  unfold impute. destruct copy_on_write; by rewrite ?length_fill, length_map.
Qed.

Lemma fill_lookup m data i :
  fill m data !! i
  = (fun c => match c with NaN => median_cell m | _ => c end) <$> data !! i.
Proof.
  destruct m as [q | ]; cbn.
  - by rewrite list_lookup_fmap.
  - destruct (data !! i) as [ [ | | ] | ]; done.
Qed.

Lemma impute_lookup data i c :
  data !! i = Some c ->
  impute numeric_literal copy_on_write data !! i
  = Some (match coerce numeric_literal c with
          | NaN =>
              if copy_on_write then NaN
              else median_cell (median_of (numeric_values
                                   (map (coerce numeric_literal) data)))
          | x => x
          end).
Proof.
  intros Hc. unfold impute. destruct copy_on_write.
  - rewrite list_lookup_fmap, Hc. cbn. by destruct (coerce numeric_literal c).
  - rewrite fill_lookup, list_lookup_fmap, Hc. cbn.
    by destruct (coerce numeric_literal c).
Qed.

Lemma concat_lookup {A B} (g h : A -> list B) (l : list A) k a i :
  (forall x, length (g x) = length (h x)) ->
  l !! k = Some a -> i < length (g a) ->
  List.concat (map g l) !! (length (List.concat (map h (take k l))) + i)
  = g a !! i.
Proof.
  intros Hgh. revert k. induction l as [ | x l IH ]; intros k Hk Hi; [ done | ].
  destruct k as [ | k ]; cbn in *.
  - injection Hk as ->. by apply lookup_app_l.
  - rewrite length_app, <- Hgh, <- Nat.add_assoc.
    rewrite lookup_app_r by lia.
    replace (length (g x) + _ - length (g x))
      with (length (List.concat (map h (take k l))) + i) by lia.
    by apply IH.
Qed.

(** **** The claims *)

(** What the script writes for a row whose source salary is blank or not
    a number.  Without copy-on-write it is the median of the numeric
    salaries of the source file the row comes from (no number when that
    file has no numeric salary); with copy-on-write the fill of line 24
    is lost and the row has no salary. *)
Lemma missing_salary_is_file_median directory frames m k f i c :
  sources directory = inr frames ->
  master numeric_literal copy_on_write directory = Some m ->
  frames !! k = Some f ->
  salary_source f !! i = Some c ->
  coerce numeric_literal c = NaN ->
  exists out,
    lookup_column "Salary" m = Some out /\
    out !! merged_row frames k i
    = Some (if copy_on_write then NaN
            else median_cell (median_of (numeric_salaries numeric_literal f))).
Proof.
  intros Hs Hm Hk Hi Hc. eexists. split; [ by eapply master_salary | ].
  unfold merged_row.
  rewrite (concat_lookup (fun f => impute numeric_literal copy_on_write (salary_source f))
             salary_source frames k f i (fun x => length_impute _) Hk).
  - rewrite (impute_lookup _ _ _ Hi), Hc. done.
  - rewrite length_impute. by eapply lookup_lt_Some.
Qed.

(** A numeric salary is written as it is. *)
Lemma numeric_salary_is_kept directory frames m k f i c q :
  sources directory = inr frames ->
  master numeric_literal copy_on_write directory = Some m ->
  frames !! k = Some f ->
  salary_source f !! i = Some c ->
  coerce numeric_literal c = Num q ->
  exists out,
    lookup_column "Salary" m = Some out /\
    out !! merged_row frames k i = Some (Num q).
Proof.
  intros Hs Hm Hk Hi Hc. eexists. split; [ by eapply master_salary | ].
  unfold merged_row.
  rewrite (concat_lookup (fun f => impute numeric_literal copy_on_write (salary_source f))
             salary_source frames k f i (fun x => length_impute _) Hk).
  - rewrite (impute_lookup _ _ _ Hi), Hc. done.
  - rewrite length_impute. by eapply lookup_lt_Some.
Qed.

Lemma no_numeric_values data :
  Forall (fun c => coerce numeric_literal c = NaN) data ->
  map (coerce numeric_literal) data = replicate (length data) NaN.
Proof.
  induction 1 as [ | c data Hc _ IH ]; cbn; [ done | ]. by rewrite Hc, IH.
Qed.

Lemma numeric_values_replicate_NaN n : numeric_values (replicate n NaN) = [].
Proof. induction n; done. Qed.

(** C10.  For a source file without a single numeric salary the median
    is undefined, lines 23-24 leave its salary column all null and raise
    nothing, and so are its rows in the file the script writes. *)
Theorem undefined_median_leaves_nulls directory frames k f :
  sources directory = inr frames ->
  frames !! k = Some f ->
  Forall (fun c => coerce numeric_literal c = NaN) (salary_source f) ->
  median_of (numeric_salaries numeric_literal f) = None
  /\ (forall a w p,
        heap w !! a = Some f ->
        positions "Salary" (rename_frame columns f) 0 = [p] ->
        exists f',
          loop_body numeric_literal copy_on_write a w
          = (inr tt, with_heap (<[a := f']> (heap w)) w)
          /\ lookup_column "Salary" f'
             = Some (replicate (length (salary_source f)) NaN))
  /\ (forall m,
        master numeric_literal copy_on_write directory = Some m ->
        exists out,
          lookup_column "Salary" m = Some out /\
          forall i, i < length (salary_source f) ->
                    out !! merged_row frames k i = Some NaN).
Proof.
  intros Hs Hk Hall.
  assert (Hmed : median_of (numeric_salaries numeric_literal f) = None).
  { unfold numeric_salaries.
    by rewrite (no_numeric_values _ Hall), numeric_values_replicate_NaN. }
  split; [ done | split ].
  - intros a w p Hf P. pose proof (loop_body_spec numeric_literal copy_on_write a f w Hf) as B.
    assert (S : exists f', standardize numeric_literal copy_on_write f = inr f').
    { unfold standardize. rewrite P. eauto. }
    destruct S as [f' S]. rewrite S in B. exists f'. split; [ done | ].
    destruct (standardize_returns _ _ S) as [_ ->]. f_equal.
    unfold impute. fold (numeric_salaries numeric_literal f). rewrite Hmed.
    destruct copy_on_write; by apply no_numeric_values.
  - intros m Hm. eexists. split; [ by eapply master_salary | ].
    intros i Hi. destruct (lookup_lt_is_Some_2 _ _ Hi) as [c Hc].
    unfold merged_row.
    rewrite (concat_lookup (fun f => impute numeric_literal copy_on_write (salary_source f))
               salary_source frames k f i (fun x => length_impute _) Hk).
    + rewrite (impute_lookup _ _ _ Hc).
      rewrite Forall_forall in Hall.
      rewrite (Hall c (list_elem_of_lookup_2 _ _ _ Hc)).
      fold (numeric_salaries numeric_literal f). rewrite Hmed.
      by destruct copy_on_write.
    + by rewrite length_impute.
Qed.

(** C7.  When the pattern matches no file the script raises
    [ValueError("No objects to concatenate")] from [pd.concat]: it prints
    nothing and writes no file.  The outcome is a function of the
    listing, so every run on it ends the same way. *)
Theorem no_matching_file_fails directory :
  glob directory = [] ->
  run numeric_literal copy_on_write directory
  = (inl (ValueError "No objects to concatenate"),
     {| heap := []; stdout := []; written := ∅ |})
  /\ master numeric_literal copy_on_write directory = None.
Proof.
  intros G.
  assert (R : run numeric_literal copy_on_write directory
              = (inl (ValueError "No objects to concatenate"),
                 {| heap := []; stdout := []; written := ∅ |})).
  { unfold run, script. rewrite G. reflexivity. }
  split; [ done | ]. unfold master. rewrite R. apply lookup_empty.
Qed.

Lemma canonical_synonym n : n ∈ synonyms -> canonical n ∈ canonical_names.
Proof.
  unfold synonyms, canonical_names. rewrite !elem_of_cons, elem_of_nil.
  intros [ -> | [ -> | [ -> | [ -> | [ -> | [] ] ] ] ] ];
    [ change (canonical "empID") with "Employee_ID"
    | change (canonical "id") with "Employee_ID"
    | change (canonical "sal") with "Salary"
    | change (canonical "salary") with "Salary"
    | change (canonical "dept") with "Department" ];
    set_solver.
Qed.

(** Frames with recognised headers pass the loop, and leave it under the
    canonical names. *)
Lemma recognised_standardized (frames : list DataFrame) :
  Forall recognised frames ->
  exists fs,
    collect (map (standardize numeric_literal copy_on_write) frames) = inr fs
    /\ Forall2 (fun f f' => names f' = map canonical (names f)) frames fs
    /\ Forall (fun f' => NoDup (names f') /\ "Salary" ∈ names f'
                         /\ Forall (fun n => n ∈ canonical_names) (names f')) fs.
Proof.
  intros Hr.
  destruct (collect_succeeds (standardize numeric_literal copy_on_write) frames) as [fs C].
  { eapply Forall_impl; [ exact Hr | ]. intros f (_ & Hd & Hs).
    by apply standardize_succeeds. }
  exists fs. split; [ done | ].
  apply collect_returns in C. clear -C Hr. revert Hr.
  induction C as [ | f f' frames fs S _ IH ]; intros Hr.
  - split; constructor.
  - apply Forall_cons in Hr as [(Hsyn & Hd & Hs) Hr].
    destruct (standardize_returns _ _ S) as [N _].
    destruct (IH Hr) as [I1 I2].
    split; constructor; try done.
    rewrite N. repeat split; try done.
    apply Forall_forall. intros n (x & -> & Hx)%list_elem_of_fmap.
    rewrite Forall_forall in Hsyn. apply canonical_synonym. auto.
Qed.


(** The sixth testable property: files with the headers
    [empID,sal,dept] and [id,salary,dept], in whatever mix, give the
    header [Employee_ID,Salary,Department]. *)
Lemma three_column_headers directory frames :
  sources directory = inr frames ->
  frames <> [] ->
  Forall (fun f => exists e s, names f = [e; s; "dept"]
                               /\ e ∈ ["empID"; "id"] /\ s ∈ ["sal"; "salary"])
         frames ->
  exists m, master numeric_literal copy_on_write directory = Some m
            /\ names m = canonical_names.
Proof.
  intros Hs Hne Hh.
  assert (Hc : Forall (fun f => map canonical (names f) = canonical_names) frames).
  { eapply Forall_impl; [ exact Hh | ]. intros f (e & s & -> & He & Hs').
    rewrite !elem_of_cons, elem_of_nil in He, Hs'.
    destruct He as [ -> | [ -> | [] ] ], Hs' as [ -> | [ -> | [] ] ]; reflexivity. }
  assert (Hr : Forall recognised frames).
  { eapply Forall_impl; [ exact Hh | ]. intros f (e & s & N & He & Hs').
    unfold recognised. rewrite N.
    rewrite !elem_of_cons, elem_of_nil in He, Hs'.
    destruct He as [ -> | [ -> | [] ] ], Hs' as [ -> | [ -> | [] ] ];
      repeat split; apply (bool_decide_unpack _); by vm_compute. }
  destruct (recognised_standardized frames Hr) as (fs & C & HN & _).
  assert (Hfs : Forall (fun f' => names f' = canonical_names) fs).
  { clear -HN Hc. induction HN as [ | f f' frames fs N _ IH ]; [ done | ].
    apply Forall_cons in Hc as [Hf Hc]. constructor; [ congruence | auto ]. }
  destruct fs as [ | d rest ].
  { apply Forall2_length in HN. destruct frames; [ done | discriminate ]. }
  apply Forall_cons in Hfs as [Hd Hrest].
  assert (S : Forall (fun f => names d = names f) rest).
  { eapply Forall_impl; [ exact Hrest | ]. intros f' E. cbn in E. congruence. }
  exists (stack (d :: rest)). split.
  - apply master_pipeline. unfold pipeline. rewrite Hs, C. unfold concat_frames.
    assert (forallb (same_names d) rest = true) as ->; [ | done ].
    apply forallb_forall. intros f' Hf'%list_elem_of_In.
    rewrite Forall_forall in S. apply bool_decide_eq_true. auto.
  - by rewrite stack_names.
Qed.

(** **** The median *)

Lemma insert_sorted_perm q l : insert_sorted q l ≡ₚ q :: l.
Proof.
  induction l as [ | x l IH ]; cbn; [ done | ].
  destruct (Qle_bool q x); [ done | ]. rewrite IH. apply Permutation_swap.
Qed.

Lemma sort_values_perm l : sort_values l ≡ₚ l.
Proof.
  induction l as [ | x l IH ]; cbn; [ done | ].
  rewrite insert_sorted_perm. by rewrite IH.
Qed.

Lemma insert_sorted_sorted q l :
  Sorted Qle l -> Sorted Qle (insert_sorted q l).
Proof.
  induction 1 as [ | x l Hl IH Hx ]; cbn.
  - repeat constructor.
  - destruct (Qle_bool q x) eqn:E.
    + apply Qle_bool_iff in E. repeat constructor; done.
    + assert (Hxq : (x <= q)%Q).
      { apply Qlt_le_weak, Qnot_le_lt. intros H. apply Qle_bool_iff in H.
        congruence. }
      constructor; [ done | ].
      destruct Hx as [ | y l Hxy ]; cbn; [ by constructor | ].
      destruct (Qle_bool q y); by constructor.
Qed.

(** The median is read off the numbers in ascending order. *)
Lemma sort_values_sorted l : Sorted Qle (sort_values l).
Proof.
  induction l as [ | x l IH ]; cbn; [ constructor | by apply insert_sorted_sorted ].
Qed.

Lemma median_of_defined l : l <> [] -> is_Some (median_of l).
Proof.
  intros Hl. unfold median_of.
  assert (length (sort_values l) <> 0).
  { rewrite (Permutation_length (sort_values_perm l)). by destruct l. }
  rewrite decide_False by done. destruct (Nat.even _); eauto.
Qed.

End MergeFacts.

Section MergeExamples.
Import Py EmployeeETL Examples.

(** The sixth testable property, run without copy-on-write: both headers
    become [Employee_ID,Salary,Department], and the blank salary of the
    first file becomes 60000, the median of that file. *)
Example employee_data_merged :
  master decimal false employee_data = Some employee_master.
Proof. vm_compute. reflexivity. Qed.

(** C1, where the code departs from it.  Line 24 fills the Series
    [df['Salary']], a temporary.  Under copy-on-write, the rule of pandas
    from 3.0 on, the frame does not see the fill: the second row of
    [branch_a.csv], whose salary is blank and whose file has the median
    60000, is written without a salary, and so is the row of
    [branch_b.csv] whose salary is not a number.  The same run without
    copy-on-write writes the medians. *)
Theorem blank_salary_is_not_imputed :
  master decimal true employee_data = Some employee_master_copy_on_write
  /\ salary_source branch_a !! 1 = Some NaN
  /\ median_of (numeric_salaries decimal branch_a) = Some 60000%Q
  /\ column_of "Salary" employee_master_copy_on_write
       !! merged_row [branch_a; branch_b] 0 1 = Some NaN
  /\ salary_source branch_b !! 1 = Some (Text "unknown")
  /\ median_of (numeric_salaries decimal branch_b) = Some 20%Q
  /\ column_of "Salary" employee_master_copy_on_write
       !! merged_row [branch_a; branch_b] 1 1 = Some NaN
  /\ column_of "Salary" employee_master !! merged_row [branch_a; branch_b] 0 1
     = Some (Num 60000)
  /\ column_of "Salary" employee_master !! merged_row [branch_a; branch_b] 1 1
     = Some (Num 20).
Proof. repeat split; vm_compute; reflexivity. Qed.

(** The median over both files would have been 30. *)
Example employee_data_global_median :
  median_of (numeric_salaries decimal branch_a ++ numeric_salaries decimal branch_b)
  = Some 30%Q.
Proof. vm_compute. reflexivity. Qed.

(** A file without a numeric salary goes through, its salaries null. *)
Example employee_data_with_blanks_merged :
  run decimal false employee_data_with_blanks
  = (inr tt,
     {| heap := [ [("Employee_ID", [Num 1; Num 2; Num 3]);
                   ("Salary", [Num 50000; Num 60000; Num 70000]);
                   ("Department", [Text "HR"; Text "IT"; Text "IT"])];
                  [("Employee_ID", [Num 8; Num 9]);
                   ("Salary", [NaN; NaN]);
                   ("Department", [Text "HR"; Text "IT"])];
                  employee_master_with_blanks ];
        stdout := [" Employee master dataset saved!"];
        written := {[ "clean_employee_master.csv" := employee_master_with_blanks ]} |}).
Proof. vm_compute. reflexivity. Qed.

Lemma missing_salary_is_file_median_witness :
  exists out,
    lookup_column "Salary" employee_master = Some out /\
    out !! 1 = Some (Num 60000).
Proof.
  apply (missing_salary_is_file_median decimal false employee_data
           [branch_a; branch_b] employee_master 0 branch_a 1 NaN).
  - reflexivity.
  - vm_compute. reflexivity.
  - reflexivity.
  - reflexivity.
  - reflexivity.
Defined.

Lemma undefined_median_leaves_nulls_witness :
  median_of (numeric_salaries decimal branch_c) = None
  /\ exists out,
       lookup_column "Salary" employee_master_with_blanks = Some out /\
       out !! 3 = Some NaN /\ out !! 4 = Some NaN.
Proof.
  destruct (undefined_median_leaves_nulls decimal false employee_data_with_blanks
              [branch_a; branch_c] 1 branch_c) as (Hm & _ & Hout).
  - reflexivity.
  - reflexivity.
  - repeat constructor.
  - split; [ exact Hm | ].
    destruct (Hout employee_master_with_blanks) as (out & Hl & Hi).
    + vm_compute. reflexivity.
    + exists out. split; [ exact Hl | ].
      split; [ apply (Hi 0) | apply (Hi 1) ]; vm_compute; lia.
Defined.

Lemma no_matching_file_fails_witness :
  run decimal true no_csv_files
  = (inl (ValueError "No objects to concatenate"),
     {| heap := []; stdout := []; written := ∅ |})
  /\ master decimal true no_csv_files = None.
Proof.
  apply (no_matching_file_fails decimal true no_csv_files). reflexivity.
Defined.


End MergeExamples.

(** ** The embedded-database script *)

Section SQLiteFacts.
Import Py SQLite.
Variable insert_declared :
  gmap string table -> string -> list value -> exn + gmap string table.

(** The script on a database where [movie] is bare and has three
    columns, or is not there. *)
Lemma script_on_own_table (db : gmap string table) :
  own_table db ->
  script insert_declared db
  = (inr tt,
     {| file := <["movie" := movie_after db]> db;
        view := <["movie" := movie_after db]> db;
        cursor := [];
        stdout := [rows (movie_after db)] |}).
Proof.
  intros Hown. unfold movie_after.
  destruct (db !! "movie") as [t | ] eqn:M.
  - destruct (Hown t M) as [Hb Harity].
    unfold script, connect, st_bind, execute, commit, fetchall, print,
      close, set_view.
    repeat first
      [ progress cbn [file view cursor stdout columns rows bare]
      | rewrite M
      | rewrite Hb
      | rewrite lookup_insert_eq
      | rewrite insert_insert_eq
      | rewrite decide_True by (rewrite Harity; reflexivity) ].
    reflexivity.
  - unfold script, connect, st_bind, execute, commit, fetchall, print,
      close, set_view.
    repeat first
      [ progress cbn [file view cursor stdout columns rows bare]
      | rewrite M
      | rewrite lookup_insert_eq
      | rewrite insert_insert_eq
      | rewrite decide_True by reflexivity ].
    reflexivity.
Qed.

(** C9, as the code has it.  The table [movie] has three columns,
    [title], [year] and [score].  On a database where the table is not
    there, or is there as line 4 declares it (three columns, bare), the
    script creates the table if it is absent, adds the row
    [('Title', 2025, 9.5)] (a text, an integer, a real), commits, and
    reads back and prints the rows of the table: every row that was
    there and the new one. *)
Theorem script_inserts_and_reads_back (db : gmap string table) :
  own_table db ->
  script insert_declared db
  = (inr tt,
     {| file := <["movie" := movie_after db]> db;
        view := <["movie" := movie_after db]> db;
        cursor := [];
        stdout := [rows (movie_after db)] |})
  /\ the_row ∈ rows (movie_after db)
  /\ (forall t r, db !! "movie" = Some t -> r ∈ rows t ->
                  r ∈ rows (movie_after db))
  /\ (db !! "movie" = None ->
      columns (movie_after db) = ["title"; "year"; "score"]).
Proof.
  intros Hown. split; [ by apply script_on_own_table | ].
  unfold movie_after. destruct (db !! "movie") as [t | ] eqn:M; repeat split.
  - cbn. apply elem_of_app. right. apply list_elem_of_singleton. done.
  - intros t' r [= <-] Hr. cbn. apply elem_of_app. by left.
  - discriminate.
  - cbn. apply list_elem_of_singleton. done.
  - discriminate.
Qed.

End SQLiteFacts.

Section SQLiteExamples.
Import Py SQLite Examples.

Lemma script_inserts_and_reads_back_witness :
  script refusing after_first_run
  = (inr tt,
     {| file := <["movie" := movie_after after_first_run]> after_first_run;
        view := <["movie" := movie_after after_first_run]> after_first_run;
        cursor := [];
        stdout := [[the_row; the_row]] |}).
Proof.
  refine (proj1 (script_inserts_and_reads_back refusing after_first_run _)).
  intros t Ht. vm_compute in Ht. injection Ht as <-. split; reflexivity.
Defined.

(** C9, as the specification words it, fails: the table the script
    creates has three columns, not two, and they are declared by name
    alone, without types. *)
Lemma movie_is_not_two_column :
  file (script refusing ∅).2 !! "movie"
  = Some {| columns := ["title"; "year"; "score"];
            rows := [the_row];
            bare := true |}
  /\ ~ exists t, file (script refusing ∅).2 !! "movie" = Some t
                 /\ length (columns t) = 2.
Proof.
  assert (E : file (script refusing ∅).2 !! "movie"
              = Some {| columns := ["title"; "year"; "score"];
                        rows := [the_row];
                        bare := true |})
    by (vm_compute; reflexivity).
  split; [ exact E | ]. intros (t & Ht & Hl).
  rewrite E in Ht. injection Ht as <-. discriminate Hl.
Qed.

(** A second run adds a second row and reads both back. *)
Example script_twice :
  stdout (script refusing (file (script refusing ∅).2)).2 = [[the_row; the_row]].
Proof. vm_compute. reflexivity. Qed.

(** A [movie] table of another shape makes the insert fail. *)
Example script_on_other_table :
  (script refusing two_column_movie).1
  = inl (OperationalError "table movie has 2 columns but 3 values were supplied").
Proof. vm_compute. reflexivity. Qed.

(** So does a [movie] table with a key that the row of line 6 meets
    again: what the script does there is up to the engine. *)
Example script_on_keyed_table :
  (script refusing keyed_movie).1
  = inl (IntegrityError "UNIQUE constraint failed: movie.title").
Proof. vm_compute. reflexivity. Qed.

End SQLiteExamples.

(** * Further properties *)

(** ** The error-handling script *)

Section DriverFacts.
Import Py ErrorHandling.
Context {scalar : Type} `{EqDecision scalar}.
Implicit Types (df : DataFrame scalar) (spark : SparkSession scalar).
Local Open Scope py_scope.

Lemma stops_last_stop : stops_last stop.
Proof.
  exists []. split; [ apply not_elem_of_nil | ]. right. split; [ done | by exists tt ].
Qed.

Lemma stops_last_bind {A B} (m : py A) (k : A -> py B) :
  quiet m -> (forall a, stops_last (k a)) -> stops_last (bind m k).
Proof.
  unfold quiet, stops_last. intros Hm Hk. destruct m as [t [a | e | c]]; cbn in *.
  - destruct (Hk a) as (t0 & Ht0 & Hcase). destruct (k a) as [t' o]. cbn in *.
    exists (t ++ t0). split; [ rewrite elem_of_app; tauto | ].
    destruct Hcase as [[-> Hn] | [-> Hr]]; [ left | right ]; split; try done.
    by rewrite app_assoc.
  - exists t. split; [ done | ]. left. split; [ done | discriminate ].
  - exists t. split; [ done | ]. left. split; [ done | discriminate ].
Qed.

Lemma main_body_stops_last spark df : stops_last (main_body spark df).
Proof.
  unfold main_body, printSchema, checkpoint, createOrReplaceTempView.
  repeat first
    [ apply stops_last_stop
    | apply stops_last_bind; [ | intros ? ]
    | apply quiet_show | apply quiet_count
    | apply quiet_safe_distinct_count | apply quiet_run_sql_query
    | apply quiet_print | apply quiet_call_ | apply quiet_ret
    | apply quiet_bind; [ | intros ? ]
    | match goal with |- quiet (match ?r with _ => _ end) => destruct r end ].
Qed.

(** X1.  In every run of [main] the session is stopped at most once, and
    nothing is printed after the stop. *)
Theorem main_stop_is_last (getOrCreate : exn + SparkSession scalar) :
  exists t,
    (SparkStop ∉ t)
    /\ (trace (main getOrCreate) = t \/ trace (main getOrCreate) = t ++ [SparkStop]).
Proof.
  destruct getOrCreate as [e | spark].
  - rewrite main_when_creation_fails. eexists [_]. split; [ | left; reflexivity ].
    rewrite list_elem_of_singleton. discriminate.
  - destruct (result (read_csv_handle_exceptions spark file_path))
      as [df | e | c] eqn:E.
    + rewrite (main_when_read_returns _ _ E).
      destruct (main_body_stops_last spark df) as (t & Ht & [[-> _] | [-> _]]);
        exists t; auto.
    + rewrite (main_when_read_raises _ _ E).
      destruct (is_FileNotFoundError e); cbn;
        eexists [_]; (split; [ | right; reflexivity ]);
        rewrite list_elem_of_singleton; discriminate.
    + destruct (no_exit_read_csv_handle_exceptions spark file_path c E).
Qed.

Lemma result_bind {A B} (m : py A) (k : A -> py B) :
  result (bind m k)
  = match result m with
    | Return a => result (k a)
    | Raise e => Raise e
    | SysExit c => SysExit c
    end.
Proof. destruct m as [t [a | e | c]]; cbn; try done. by destruct (k a). Qed.

Lemma result_show df n :
  job_fault df (Show n) = None -> result (show df n) = Return tt.
Proof. intros J. unfold show. by rewrite J. Qed.

Lemma result_safe_distinct_count df (c : string) :
  plain_name c = true ->
  job_fault df Count = None ->
  length (positions c (columns df) 0) <= 1 ->
  exists n, result (safe_distinct_count df c) = Return n.
Proof.
  intros Hp J L. unfold safe_distinct_count. case_decide as Hc; [ | by exists 0 ].
  rewrite (select_plain df c Hp).
  pose proof (positions_present c (columns df) 0 Hc) as P.
  destruct (positions c (columns df) 0) as [ | i [ | j l ] ].
  - done.
  - rewrite result_bind. cbn. unfold count. cbn. rewrite J. cbn. eauto.
  - cbn in L. lia.
Qed.

Lemma result_run_sql_query spark q :
  (forall e, sql spark q = inl e -> is_PySparkException e = true) ->
  exists r, run_sql_query spark q
            = (match sql spark q with
               | inl e => [Print ("SQL error: " +:+ desc e)]
               | inr _ => []
               end,
               Return r)
            /\ r = match sql spark q with inl _ => None | inr d => Some d end.
Proof.
  intros Hq. unfold run_sql_query. destruct (sql spark q) as [e | d]; cbn.
  - rewrite (Hq e eq_refl). cbn. eauto.
  - eauto.
Qed.

(** X3.  A missing [customer_id] column and SQL failures are not fatal:
    when the read succeeds, every Spark job of the script runs, and each
    of the two queries either returns or raises a [PySparkException],
    [main] runs to its end, stops the session and leaves with status 0. *)
Theorem recoverable_failures_are_not_fatal spark df :
  result (read_csv_handle_exceptions spark file_path) = Return df ->
  (forall a, job_fault df a = None) ->
  (forall a, checkpointed_fault df a = None) ->
  setCheckpointDir spark "/tmp/spark_checkpoints" = None ->
  length (positions "customer_id" (columns df) 0) <= 1 ->
  (forall e, sql spark query = inl e -> is_PySparkException e = true) ->
  (forall r, sql spark query = inr r -> job_fault r (Show 5) = None) ->
  (forall e, sql spark bad_query = inl e -> is_PySparkException e = true) ->
  result (main (inr spark)) = Return tt
  /\ exit_status (main (inr spark)) = 0%Z
  /\ SparkStop ∈ trace (main (inr spark)).
Proof.
  intros E J Jc Hdir Hcol Hq Hshow Hbad.
  assert (R : result (main (inr spark)) = Return tt).
  { rewrite (main_when_read_returns _ _ E). unfold main_body.
    rewrite result_bind. cbn [printSchema print result snd].
    rewrite result_bind, result_show by done.
    rewrite result_bind.
    destruct (result_safe_distinct_count df "customer_id" eq_refl (J Count) Hcol)
      as [n ->].
    rewrite result_bind. cbn [print result snd].
    rewrite result_bind, Hdir. cbn [call_ ret result snd].
    rewrite result_bind. unfold checkpoint at 1.
    rewrite result_bind, (J Checkpoint). cbn [call_ ret result snd].
    rewrite result_bind. unfold count. rewrite result_bind.
    cbn [job_fault]. rewrite (Jc Count). cbn [call_ ret result snd].
    rewrite result_bind. cbn [print result snd].
    rewrite result_bind. unfold createOrReplaceTempView.
    rewrite (J (CreateOrReplaceTempView "customers")). cbn [call_ ret result snd].
    rewrite result_bind.
    destruct (result_run_sql_query spark query Hq) as (r & -> & Hr).
    cbn [result snd]. rewrite result_bind.
    assert (S : result (match r with Some r0 => show r0 5 | None => ret tt end)
                = Return tt).
    { subst r. destruct (sql spark query) as [e | d] eqn:Q; [ done | ].
      by apply result_show, Hshow. }
    rewrite S. rewrite result_bind.
    destruct (result_run_sql_query spark bad_query Hbad) as (r' & -> & _).
    reflexivity. }
  split; [ done | ]. split.
  - unfold exit_status. by rewrite R.
  - rewrite (main_when_read_returns _ _ E) in R |- *.
    apply main_body_stops_iff_returns. eauto.
Qed.

(** *** More on the reader *)

Lemma prefix_empty (s : string) : String.prefix "" s = true.
Proof. by destruct s. Qed.

Lemma prefix_app (p s : string) : String.prefix p (p +:+ s) = true.
Proof.
  induction p as [ | a p IH ]; simpl; [ apply prefix_empty | ].
  destruct (ascii_dec a a); [ exact IH | congruence ].
Qed.

Lemma prefix_split (p s : string) :
  String.prefix p s = true -> exists post, s = p +:+ post.
Proof.
  revert s. induction p as [ | a p IH ]; intros s Hp.
  - by exists s.
  - destruct s as [ | b s ]; [ done | ]. simpl in Hp.
    destruct (ascii_dec a b) as [ -> | ]; [ | done ].
    destruct (IH s Hp) as [post ->]. by exists post.
Qed.

Lemma contains_prefix (sub s : string) :
  String.prefix sub s = true -> contains sub s = true.
Proof. intros Hp. destruct s; simpl in *; by rewrite Hp. Qed.

Lemma contains_split (sub s : string) :
  contains sub s = true <-> exists pre post, s = pre +:+ sub +:+ post.
Proof.
  split.
  - induction s as [ | a s IH ].
    + destruct sub; [ by exists "", "" | done ].
    + change (contains sub (String a s))
        with (String.prefix sub (String a s) || contains sub s).
      rewrite orb_true_iff. intros [Hp | Hc].
      * destruct (prefix_split _ _ Hp) as [post E]. by exists "", post.
      * destruct (IH Hc) as (pre & post & ->). by exists (String a pre), post.
  - intros (pre & post & ->). induction pre as [ | a pre IH ].
    + change ("" +:+ sub +:+ post) with (sub +:+ post).
      apply contains_prefix, prefix_app.
    + simpl. rewrite orb_true_iff. by right.
Qed.

(** X4.  The reader never turns a failure into a result or a result into
    a failure, prints nothing, and never ends the script itself. *)
Theorem read_csv_handle_exceptions_keeps_outcome spark path :
  (forall df, result (read_csv_handle_exceptions spark path) = Return df
              <-> read_csv spark path = inr df)
  /\ trace (read_csv_handle_exceptions spark path) = []
  /\ no_exit (read_csv_handle_exceptions spark path).
Proof.
  split; [ | split; [ | apply no_exit_read_csv_handle_exceptions ] ].
  - intros df. destruct (read_csv spark path) as [e | df'] eqn:R.
    + rewrite (read_csv_handle_exceptions_raises _ _ _ R). split; discriminate.
    + rewrite (read_csv_handle_exceptions_returns _ _ _ R). cbn.
      split; congruence.
  - destruct (read_csv spark path) as [e | df'] eqn:R.
    + by rewrite (read_csv_handle_exceptions_raises _ _ _ R).
    + by rewrite (read_csv_handle_exceptions_returns _ _ _ R).
Qed.

(** X5.  A [Py4JJavaError] is taken for a stopped session exactly when
    its text holds the sentence "Cannot call methods on a stopped
    SparkContext" somewhere, whatever comes before and after. *)
Theorem stopped_marker_anywhere spark path (t : string) :
  read_csv spark path = inl (Py4JJavaError t) ->
  result (read_csv_handle_exceptions spark path) = Raise (Exception restart_message)
  <-> exists pre post, t = pre +:+ stopped_context +:+ post.
Proof.
  intros R. rewrite (read_csv_handle_exceptions_raises _ _ _ R).
  rewrite <- contains_split. cbn.
  destruct (contains stopped_context t); split; try done; discriminate.
Qed.

(** X6.  An [AnalysisException] is taken for a missing path exactly when
    its text begins with ['Path does not exist:], quote included; the
    same words later in the text do not count. *)
Theorem missing_path_by_prefix spark path (t d : string) :
  read_csv spark path = inl (AnalysisException t d) ->
  result (read_csv_handle_exceptions spark path)
    = Raise (FileNotFoundError ("File path does not exist: " +:+ path))
  <-> exists rest, t = path_prefix +:+ rest.
Proof.
  intros R. rewrite (read_csv_handle_exceptions_raises _ _ _ R). cbn.
  unfold startswith. split.
  - destruct (String.prefix path_prefix t) eqn:P; [ | discriminate ].
    intros _. by apply prefix_split.
  - intros [rest ->]. by rewrite prefix_app.
Qed.

(** *** More on the aggregator *)

Lemma remove_dups_length_le {A} `{EqDecision A} (l : list A) :
  length (remove_dups l) <= length l.
Proof.
  induction l as [ | x l IH ]; cbn; [ done | ].
  destruct (decide_rel elem_of x l); cbn; lia.
Qed.

Lemma remove_dups_nil {A} `{EqDecision A} (l : list A) :
  remove_dups l = [] -> l = [].
Proof.
  destruct l as [ | x l ]; [ done | ]. intros E.
  assert (Hx : x ∈ remove_dups (x :: l))
    by (apply elem_of_remove_dups, elem_of_cons; auto).
  rewrite E in Hx. by apply elem_of_nil in Hx.
Qed.

(** X7.  The count is never more than the number of rows, and for a
    column that is there it is zero only for a dataset without rows. *)
Theorem safe_distinct_count_bounds df (c : string) t n :
  safe_distinct_count df c = (t, Return n) ->
  n <= length (rows df)
  /\ (c ∈ columns df -> n = 0 -> rows df = []).
Proof.
  unfold safe_distinct_count, select, count. case_decide as Hc.
  - case_decide as Hstar.
    + cbn. destruct (job_fault df Count); cbn; [ done | ].
      intros [= <- <-]. split; [ apply remove_dups_length_le | ].
      intros _ Hn. apply nil_length_inv in Hn. by apply remove_dups_nil in Hn.
    + destruct (attribute_name c) as [ name | ]; [ | done ].
      destruct (positions name (columns df) 0) as [ | i [ | j l ] ]; cbn; try done.
      destruct (job_fault df Count); cbn; [ done | ].
      intros [= <- <-]. split.
      * etransitivity; [ apply remove_dups_length_le | ]. by rewrite length_map.
      * intros _ Hn. apply nil_length_inv in Hn. apply remove_dups_nil in Hn.
        by destruct (rows df).
  - cbn. intros [= <- <-]. split; [ lia | done ].
Qed.

Lemma selected_rows_plain df (c : string) :
  plain_name c = true ->
  selected_rows df c = map (fun v => [v]) (column_values df c).
Proof.
  intros Hp. destruct (attribute_name_plain c Hp) as [Ha Hs].
  unfold selected_rows. by rewrite decide_False, Ha by done.
Qed.

Lemma distinct_rows_alike {A} `{EqDecision A} (l1 l2 : list A) :
  (forall x, x ∈ l1 <-> x ∈ l2) ->
  length (remove_dups l1) = length (remove_dups l2).
Proof.
  intros Hx. apply Permutation_length, NoDup_Permutation.
  - apply NoDup_remove_dups.
  - apply NoDup_remove_dups.
  - intros v. rewrite !elem_of_remove_dups. apply Hx.
Qed.

(** X8.  The count depends on the values the column holds, not on how
    often or in which order they come: two datasets with the same header
    whose column [c] holds the same values give the same answer.  For
    an argument that is not a plain name the same holds of the rows
    that [select] keeps. *)
Theorem safe_distinct_count_depends_on_values df1 df2 (c : string) :
  columns df1 = columns df2 ->
  job_fault df1 Count = job_fault df2 Count ->
  (plain_name c = true
   /\ forall v, v ∈ column_values df1 c <-> v ∈ column_values df2 c)
  \/ (forall r, r ∈ selected_rows df1 c <-> r ∈ selected_rows df2 c) ->
  safe_distinct_count df1 c = safe_distinct_count df2 c.
Proof.
  intros Hcols Hj Hv.
  assert (Hr : forall r, r ∈ selected_rows df1 c <-> r ∈ selected_rows df2 c).
  { destruct Hv as [[Hp Hv] | Hr]; [ | done ]. intros r.
    rewrite !(selected_rows_plain _ c Hp).
    change (map (fun v => [v])) with (fmap (M := list) (fun v : option scalar => [v])).
    rewrite !list_elem_of_fmap. split; intros (v & -> & Hin); exists v;
      (split; [ done | by apply Hv ]). }
  clear Hv. unfold safe_distinct_count. rewrite <- Hcols.
  destruct (decide (c ∈ columns df1)) as [ Hc | Hc ]; [ | done ].
  unfold select, count, selected_rows, column_values in *. rewrite <- Hcols in *.
  destruct (decide (c = "*")) as [ Hstar | Hstar ].
  - cbn. rewrite <- Hj. destruct (job_fault df1 Count); cbn; [ done | ].
    do 2 f_equal. by apply distinct_rows_alike.
  - destruct (attribute_name c) as [ name | ]; [ | done ].
    destruct (positions name (columns df1) 0) as [ | i [ | j l ] ]; cbn; try done.
    rewrite <- Hj. destruct (job_fault df1 Count); cbn; [ done | ].
    do 2 f_equal. apply distinct_rows_alike. intros r.
    rewrite !map_map in Hr. apply Hr.
Qed.

End DriverFacts.

(** ** The merge script *)

Section MergeMore.
Import Py EmployeeETL.
Local Open Scope st_scope.
Variable numeric_literal : string -> option Q.
Variable copy_on_write : bool.

Lemma run_pipeline directory :
  (run numeric_literal copy_on_write directory).1
  = match pipeline numeric_literal copy_on_write directory with
    | inr _ => inr tt
    | inl e => inl e
    end.
Proof.
  pose proof (run_refines numeric_literal copy_on_write directory) as R.
  destruct (pipeline numeric_literal copy_on_write directory); destruct R as [h ->]; done.
Qed.

(** X9.  The script writes all or nothing: when it ends well it has
    written the one file and printed the one message; when it raises,
    whatever the reason, it has written no file and printed nothing. *)
Theorem run_writes_all_or_nothing directory :
  match (run numeric_literal copy_on_write directory).1 with
  | inr _ =>
      stdout (run numeric_literal copy_on_write directory).2 = [" Employee master dataset saved!"]
      /\ exists m, written (run numeric_literal copy_on_write directory).2
                   = {[ "clean_employee_master.csv" := m ]}
  | inl _ =>
      stdout (run numeric_literal copy_on_write directory).2 = []
      /\ written (run numeric_literal copy_on_write directory).2 = ∅
  end.
Proof.
  pose proof (run_refines numeric_literal copy_on_write directory) as R.
  destruct (pipeline numeric_literal copy_on_write directory); destruct R as [h ->]; cbn; eauto.
Qed.

Lemma collect_first_error {A B} (g : A -> exn + B) good a rest e :
  Forall (fun x => exists b, g x = inr b) good ->
  g a = inl e ->
  collect (map g (good ++ a :: rest)) = inl e.
Proof.
  intros Hg Ha. induction Hg as [ | x good [b Hx] _ IH ]; cbn.
  - by rewrite Ha.
  - by rewrite Hx, IH.
Qed.

(** X10.  Every matched file is read before any is transformed: when one
    of them cannot be read, the script raises that file's exception (the
    first such file's, in listing order), whatever the other files hold. *)
Theorem unreadable_file_aborts directory ok name e rest :
  glob directory = ok ++ (name, inl e) :: rest ->
  Forall (fun file => exists f, file.2 = inr f) ok ->
  (run numeric_literal copy_on_write directory).1 = inl e.
Proof.
  intros G Hok. rewrite run_pipeline. unfold pipeline, sources. rewrite G.
  by rewrite (collect_first_error snd ok (name, inl e) rest e Hok).
Qed.

(** X11.  A file without a salary column makes the script raise
    [KeyError('Salary')]; a file with several (both [sal] and [salary],
    say) makes it raise the [TypeError] of [pd.to_numeric].  The files
    before it have one salary column each. *)
Theorem salary_column_errors directory good f rest :
  sources directory = inr (good ++ f :: rest) ->
  Forall (fun g => exists p, positions "Salary" (rename_frame columns g) 0 = [p]) good ->
  ("Salary" ∉ map canonical (names f) ->
     (run numeric_literal copy_on_write directory).1 = inl (KeyError "Salary"))
  /\ (2 <= length (positions "Salary" (rename_frame columns f) 0) ->
      (run numeric_literal copy_on_write directory).1
      = inl (TypeError "arg must be a list, tuple, 1-d array, or Series")).
Proof.
  intros Hs Hgood.
  assert (Hg : Forall (fun g => exists b, standardize numeric_literal copy_on_write g = inr b) good).
  { eapply Forall_impl; [ exact Hgood | ]. intros g [p P].
    unfold standardize. rewrite P. eauto. }
  split; intros Hf; rewrite run_pipeline; unfold pipeline; rewrite Hs.
  - rewrite (collect_first_error _ good f rest (KeyError "Salary") Hg); [ done | ].
    unfold standardize. rewrite frame_positions_absent; [ done | ].
    by rewrite names_rename_frame.
  - rewrite (collect_first_error _ good f rest
               (TypeError "arg must be a list, tuple, 1-d array, or Series") Hg);
      [ done | ].
    unfold standardize.
    destruct (positions "Salary" (rename_frame columns f) 0) as [ | p [ | p' ps ] ];
      cbn in Hf; [ lia | lia | done ].
Qed.

(** **** When the script succeeds *)

Lemma concat_frames_succeeds_iff (fs : list DataFrame) :
  (exists m, concat_frames fs = inr m)
  <-> fs <> []
      /\ ((forall x y, x ∈ map names fs -> y ∈ map names fs -> x = y)
          \/ Forall (fun x => NoDup x) (map names fs)).
Proof.
  destruct fs as [ | d rest ]; [ split; [ by intros [? ?] | by intros [? _] ] | ].
  unfold concat_frames. split.
  - intros [m K]. split; [ done | ].
    destruct (forallb (same_names d) rest) eqn:S.
    + left. apply same_names_all in S. rewrite Forall_forall in S.
      assert (H : forall x, x ∈ map names (d :: rest) -> x = names d).
      { intros x (f & -> & [ -> | Hf ]%elem_of_cons)%list_elem_of_fmap;
          [ done | symmetry; auto ]. }
      intros x y Hx Hy. by rewrite (H x Hx), (H y Hy).
    + destruct (forallb has_unique_names (d :: rest)) eqn:U; [ | done ].
      right. apply Forall_forall. intros x (f & -> & Hf)%list_elem_of_fmap.
      rewrite forallb_forall in U.
      apply list_elem_of_In, U in Hf. by apply bool_decide_eq_true in Hf.
  - intros [_ [Hsame | Huniq]].
    + assert (forallb (same_names d) rest = true) as ->; [ | eauto ].
      apply forallb_forall. intros f Hf%list_elem_of_In.
      apply bool_decide_eq_true. apply Hsame; apply list_elem_of_fmap.
      * exists d. split; [ done | apply elem_of_cons; auto ].
      * exists f. split; [ done | apply elem_of_cons; auto ].
    + destruct (forallb (same_names d) rest); [ eauto | ].
      assert (forallb has_unique_names (d :: rest) = true) as ->; [ | eauto ].
      apply forallb_forall. intros f Hf%list_elem_of_In.
      apply bool_decide_eq_true. rewrite Forall_forall in Huniq.
      apply Huniq, list_elem_of_fmap. eauto.
Qed.

Lemma standardized_headers (frames fs : list DataFrame) :
  Forall2 (fun f f' => standardize numeric_literal copy_on_write f = inr f') frames fs ->
  map names fs = map (fun f => map canonical (names f)) frames.
Proof.
  induction 1 as [ | f f' frames fs S _ IH ]; [ done | ].
  cbn. destruct (standardize_returns _ _ _ _ S) as [-> _]. by rewrite IH.
Qed.

Lemma standardize_one_salary (f f' : DataFrame) :
  standardize numeric_literal copy_on_write f = inr f' ->
  exists p, positions "Salary" (rename_frame columns f) 0 = [p].
Proof.
  unfold standardize.
  destruct (positions "Salary" (rename_frame columns f) 0) as [ | p [ | p' ps ] ];
    try done. eauto.
Qed.

(** X12.  The script ends well exactly when the pattern matches at least
    one file, every matched file can be read and has exactly one column
    that the rename calls [Salary], and the renamed headers are either
    all the same or each free of repeated names.  What the cells hold
    plays no part. *)
Theorem run_succeeds_iff directory :
  (run numeric_literal copy_on_write directory).1 = inr tt
  <-> exists frames,
        sources directory = inr frames
        /\ frames <> []
        /\ Forall (fun f => exists p,
                     positions "Salary" (rename_frame columns f) 0 = [p]) frames
        /\ ((forall x y,
               x ∈ map (fun f => map canonical (names f)) frames ->
               y ∈ map (fun f => map canonical (names f)) frames -> x = y)
            \/ Forall (fun x => NoDup x)
                      (map (fun f => map canonical (names f)) frames)).
Proof.
  rewrite run_pipeline. unfold pipeline. split.
  - destruct (sources directory) as [e | frames]; [ done | ].
    destruct (collect (map (standardize numeric_literal copy_on_write) frames))
      as [e | fs] eqn:C; [ done | ].
    destruct (concat_frames fs) as [e | m] eqn:K; [ done | ]. intros _.
    apply collect_returns in C.
    destruct (proj1 (concat_frames_succeeds_iff fs)) as [Hne Hh]; [ eauto | ].
    rewrite (standardized_headers _ _ C) in Hh.
    exists frames. repeat split; try done.
    + intros ->. apply Forall2_length in C. by destruct fs.
    + clear -C. induction C as [ | f f' frames fs S _ IH ]; constructor;
        [ by eapply standardize_one_salary | done ].
  - intros (frames & -> & Hne & Hone & Hh).
    destruct (collect_succeeds (standardize numeric_literal copy_on_write) frames) as [fs C].
    { eapply Forall_impl; [ exact Hone | ]. intros f [p P].
      unfold standardize. rewrite P. eauto. }
    rewrite C. apply collect_returns in C.
    destruct (proj2 (concat_frames_succeeds_iff fs)) as [m ->]; [ | done ].
    rewrite (standardized_headers _ _ C). split; [ | done ].
    intros ->. apply Forall2_length in C. by destruct frames.
Qed.

(** **** What the script keeps *)




Lemma coerce_not_text c : is_text (coerce numeric_literal c) = false.
Proof. destruct c as [ | q | s ]; cbn; try done. by destruct (numeric_literal s). Qed.

Lemma impute_not_text data :
  Forall (fun c => is_text c = false) (impute numeric_literal copy_on_write data).
Proof.
  unfold impute. destruct copy_on_write.
  { apply Forall_forall. intros c (x & -> & _)%list_elem_of_fmap.
    apply coerce_not_text. }
  apply Forall_forall. intros c Hc.
  apply list_elem_of_lookup in Hc as [i Hi].
  rewrite fill_lookup, list_lookup_fmap in Hi.
  destruct (data !! i) as [x | ]; [ | done ]. cbn in Hi. injection Hi as <-.
  pose proof (coerce_not_text x) as Hx.
  destruct (coerce numeric_literal x); try done.
  by destruct (median_of _).
Qed.

Lemma length_concat_impute (frames : list DataFrame) :
  length (List.concat (map (fun f => impute numeric_literal copy_on_write (salary_source f)) frames))
  = length (List.concat (map salary_source frames)).
Proof.
  induction frames as [ | f frames IH ]; cbn; [ done | ].
  by rewrite !length_app, length_impute, IH.
Qed.

(** X14.  In the file the script writes the salary column has one cell
    for every row of every source file, and no cell is a string.  When
    the fill of line 24 reaches the frame, that is without copy-on-write,
    the rows of a file that has at least one numeric salary all hold a
    number. *)
Theorem salary_column_is_numeric directory frames m :
  sources directory = inr frames ->
  master numeric_literal copy_on_write directory = Some m ->
  exists out,
    lookup_column "Salary" m = Some out
    /\ length out = length (List.concat (map salary_source frames))
    /\ Forall (fun c => is_text c = false) out
    /\ (copy_on_write = false ->
        forall k f i,
          frames !! k = Some f ->
          numeric_salaries numeric_literal f <> [] ->
          i < length (salary_source f) ->
          exists q, out !! merged_row frames k i = Some (Num q)).
Proof.
  intros Hs Hm. eexists. split; [ by eapply master_salary | ].
  split; [ apply length_concat_impute | ]. split.
  - apply Forall_forall. intros c Hc%list_elem_of_In.
    apply in_concat in Hc as (l & (f & <- & _)%in_map_iff & Hc).
    pose proof (impute_not_text (salary_source f)) as Hf.
    rewrite Forall_forall in Hf. by apply Hf, list_elem_of_In.
  - intros Hcow k f i Hk Hnum Hi. unfold merged_row.
    rewrite (concat_lookup (fun f => impute numeric_literal copy_on_write (salary_source f))
               salary_source frames k f i (fun x => length_impute _ _ _) Hk)
      by (by rewrite length_impute).
    destruct (lookup_lt_is_Some_2 _ _ Hi) as [c Hc].
    rewrite (impute_lookup _ _ _ _ _ Hc).
    pose proof (coerce_not_text c) as Ht.
    destruct (coerce numeric_literal c) as [ | q | s ]; [ | eauto | done ].
    rewrite Hcow. destruct (median_of_defined _ Hnum) as [q Hq].
    unfold numeric_salaries in Hq. rewrite Hq. eauto.
Qed.

(** **** Running the transform again *)

Lemma columns_values (c v : string) :
  columns !! c = Some v -> columns !! v = None.
Proof.
  unfold columns. intros Hc. apply elem_of_list_to_map_2 in Hc.
  rewrite !elem_of_cons, elem_of_nil in Hc.
  destruct Hc as [ E | [ E | [ E | [ E | [ E | [] ] ] ] ] ];
    injection E as -> ->; reflexivity.
Qed.

Lemma canonical_idempotent (c : string) : canonical (canonical c) = canonical c.
Proof.
  unfold canonical. destruct (columns !! c) as [v | ] eqn:E.
  - change (default c (Some v)) with v. by rewrite (columns_values _ _ E).
  - change (default c None) with c. by rewrite E.
Qed.

Lemma rename_frame_canonical (f : DataFrame) :
  Forall (fun n => canonical n = n) (names f) ->
  rename_frame columns f = f.
Proof.
  unfold rename_frame. induction f as [ | [n d] f IH ]; intros Hn; [ done | ].
  apply Forall_cons in Hn as [Hn Hf]. cbn [map fst snd] in *.
  change (default n (columns !! n)) with (canonical n).
  rewrite Hn. f_equal. by apply IH.
Qed.

Lemma coerce_idempotent c :
  coerce numeric_literal (coerce numeric_literal c) = coerce numeric_literal c.
Proof. destruct c as [ | q | s ]; cbn; try done. by destruct (numeric_literal s). Qed.

Lemma coerce_fill m data :
  Forall (fun c => is_text c = false) data ->
  map (coerce numeric_literal) (fill m data) = fill m data.
Proof.
  intros Hd. rewrite <- (map_id (fill m data)) at 2. apply map_ext_in.
  intros c Hc%list_elem_of_In. apply list_elem_of_lookup in Hc as [i Hi].
  rewrite fill_lookup in Hi. destruct (data !! i) as [x | ] eqn:X; [ | done ].
  rewrite Forall_forall in Hd.
  pose proof (Hd x (list_elem_of_lookup_2 _ _ _ X)) as Hx.
  cbn in Hi. injection Hi as <-. destruct x; try done. by destruct m.
Qed.

Lemma fill_no_NaN m q data :
  fill m (fill (Some q) data) = fill (Some q) data.
Proof.
  destruct m as [q' | ]; [ | done ]. cbn. rewrite map_map. apply map_ext.
  by intros [ | | ].
Qed.

Lemma impute_idempotent data :
  impute numeric_literal copy_on_write (impute numeric_literal copy_on_write data) = impute numeric_literal copy_on_write data.
Proof.
  unfold impute. destruct copy_on_write.
  { rewrite map_map. apply map_ext. intros c. apply coerce_idempotent. }
  set (numeric := map (coerce numeric_literal) data).
  assert (E : map (coerce numeric_literal) (fill (median_of (numeric_values numeric)) numeric)
              = fill (median_of (numeric_values numeric)) numeric).
  { apply coerce_fill. apply Forall_forall.
    intros c (x & -> & _)%list_elem_of_fmap. apply coerce_not_text. }
  rewrite E.
  destruct (median_of (numeric_values numeric)) as [q | ] eqn:M.
  - apply fill_no_NaN.
  - cbn [fill]. by rewrite M.
Qed.

Lemma standardize_idempotent (f f' : DataFrame) :
  standardize numeric_literal copy_on_write f = inr f' ->
  standardize numeric_literal copy_on_write f' = inr f'.
Proof.
  intros S. destruct (standardize_returns _ _ _ _ S) as [N _].
  destruct (standardize_one_salary _ _ S) as [p P].
  assert (R : rename_frame columns f' = f').
  { apply rename_frame_canonical. rewrite N. apply Forall_forall.
    intros n (x & -> & _)%list_elem_of_fmap. apply canonical_idempotent. }
  unfold standardize in S |- *. rewrite R. rewrite P in S. injection S as <-.
  rewrite (frame_positions_names "Salary" _ (rename_frame columns f) 0), P.
  - f_equal. rewrite map_map. apply map_ext. intros [n d]. cbn [fst snd].
    destruct (decide (n = "Salary")) as [ -> | Hn ]; cbn [fst snd].
    + rewrite decide_True by done. by rewrite impute_idempotent.
    + by rewrite decide_False.
  - apply names_map_cells. intros col. by case_decide.
Qed.

(** X15.  Running lines 14-24 a second time on a frame changes nothing:
    the names are already canonical, the salaries already numbers, and
    no missing salary is left to fill (or none can be filled, or the
    fill does not reach the frame). *)
Theorem loop_body_idempotent a f w w' :
  heap w !! a = Some f ->
  loop_body numeric_literal copy_on_write a w = (inr tt, w') ->
  loop_body numeric_literal copy_on_write a w' = (inr tt, w').
Proof.
  intros Hf. rewrite (loop_body_spec _ _ _ _ _ Hf).
  destruct (standardize numeric_literal copy_on_write f) as [e | f'] eqn:S; [ done | ].
  intros [= <-].
  rewrite (loop_body_spec _ _ a f' _ (heap_stored _ _ _ _ Hf)).
  rewrite (standardize_idempotent _ _ S). f_equal.
  unfold with_heap. cbn. f_equal. apply list_insert_insert_eq.
Qed.

(** **** The median and the pattern *)



Lemma ends_with_split (suffix s : string) :
  ends_with suffix s = true <-> exists pre, s = pre +:+ suffix.
Proof.
  split.
  - induction s as [ | a s IH ]; cbn [ends_with]; rewrite orb_true_iff.
    + intros [ E%bool_decide_eq_true | ? ]; [ | done ].
      exists "". by rewrite <- E.
    + intros [ E%bool_decide_eq_true | Hs ].
      * exists "". by rewrite E.
      * destruct (IH Hs) as [pre ->]. by exists (String a pre).
  - intros [pre ->]. induction pre as [ | a pre IH ].
    + change ("" +:+ suffix) with suffix.
      destruct suffix; cbn [ends_with]; rewrite orb_true_iff; left;
        by apply bool_decide_eq_true.
    + change (String a pre +:+ suffix) with (String a (pre +:+ suffix)).
      cbn [ends_with]. rewrite orb_true_iff. by right.
Qed.

(** The pattern picks, in the order of the listing, the entries whose
    name ends in [.csv] and does not begin with a dot. *)
Lemma glob_selects (directory : list entry) :
  sublist (glob directory) directory
  /\ (forall e, e ∈ glob directory
                <-> e ∈ directory
                    /\ String.prefix "." e.1 = false
                    /\ exists stem, e.1 = stem +:+ ".csv").
Proof.
  unfold glob. split.
  - induction directory as [ | e d IH ]; cbn; [ done | ].
    destruct (negb _ && _); by constructor.
  - intros e. rewrite list_elem_of_In, filter_In, <- list_elem_of_In.
    rewrite andb_true_iff, negb_true_iff, ends_with_split. tauto.
Qed.

(** X17.  An entry of the directory whose name begins with a dot or does
    not end in [.csv] plays no part: with it or without it, wherever it
    stands in the listing and whatever it holds, the run is the same,
    in its outcome, its output and the file it writes. *)
Theorem run_ignores_other_entries (pre post : list entry) (e : entry) :
  String.prefix "." e.1 = true \/ ~ (exists stem, e.1 = stem +:+ ".csv") ->
  run numeric_literal copy_on_write (pre ++ e :: post)
  = run numeric_literal copy_on_write (pre ++ post).
Proof.
  intros He. unfold run, script.
  assert (G : glob (pre ++ e :: post) = glob (pre ++ post)); [ | by rewrite G ].
  unfold glob. rewrite !List.filter_app. f_equal. cbn [List.filter].
  assert (negb (String.prefix "." e.1) && ends_with ".csv" e.1 = false) as ->;
    [ | done ].
  destruct He as [ -> | He ]; [ done | ].
  apply andb_false_iff. right. apply not_true_is_false.
  by rewrite ends_with_split.
Qed.

End MergeMore.

(** ** The embedded-database script *)

Section SQLiteMore.
Import Py SQLite.
Variable insert_declared :
  gmap string table -> string -> list value -> exn + gmap string table.

Lemma script_on_other_shape (db : gmap string table) t :
  db !! "movie" = Some t ->
  length (columns t) <> 3 ->
  script insert_declared db
  = (inl (OperationalError
            ("table movie has " +:+ pretty (length (columns t))
             +:+ " columns but 3 values were supplied")),
     connect db).
Proof.
  intros M Harity.
  unfold script, connect, st_bind, execute, commit, fetchall, print,
    close, set_view;
  repeat first
    [ progress cbn [file view cursor stdout columns rows bare]
    | rewrite M
    | rewrite lookup_insert_eq
    | rewrite insert_insert_eq ].
  rewrite decide_False by (cbn; congruence). reflexivity.
Qed.

(** X18.  On a database where [movie] is not there or is bare, so that
    no trigger hangs on it, the script touches no table but [movie]:
    every other table of the database file is after the run what it was
    before, whether the run ends well or not. *)
Theorem script_keeps_other_tables (db : gmap string table) (name : string) :
  (forall t, db !! "movie" = Some t -> bare t = true) ->
  name <> "movie" ->
  database_after insert_declared db !! name = db !! name.
Proof.
  intros Hb Hn. unfold database_after.
  destruct (db !! "movie") as [t | ] eqn:M.
  - destruct (decide (length (columns t) = 3)) as [Ha | Ha].
    + rewrite script_on_own_table.
      * cbn. by rewrite lookup_insert_ne.
      * intros t' E. rewrite M in E. injection E as <-. auto.
    + by rewrite (script_on_other_shape db t M Ha).
  - rewrite script_on_own_table by (intros t' ?; congruence).
    cbn. by rewrite lookup_insert_ne.
Qed.

(** X19.  On a database whose [movie] table does not have three columns
    the insert raises [OperationalError]; the script stops there, prints
    nothing, and the database file is what it was. *)
Theorem script_fails_on_other_shape (db : gmap string table) t :
  db !! "movie" = Some t ->
  length (columns t) <> 3 ->
  (exists msg, (script insert_declared db).1 = inl (OperationalError msg))
  /\ stdout (script insert_declared db).2 = []
  /\ database_after insert_declared db = db.
Proof.
  intros M Ha. unfold database_after.
  rewrite (script_on_other_shape db t M Ha). cbn. eauto.
Qed.

Lemma movie_after_fits (db : gmap string table) :
  own_table db ->
  bare (movie_after db) = true
  /\ length (columns (movie_after db)) = 3
  /\ rows (movie_after db) = old_rows db ++ [the_row].
Proof.
  intros Ha. unfold movie_after, old_rows.
  destruct (db !! "movie") as [t | ] eqn:M; cbn; [ | done ].
  destruct (Ha t M) as [_ ?]. done.
Qed.

(** X20.  Every run adds one row and removes none: after [n + 1] runs,
    starting from a database where [movie] is not there or is the bare
    three-column table of an earlier run, the table holds the rows it
    had and [n + 1] copies of the row of line 6 after them. *)
Theorem script_run_again_and_again (db : gmap string table) (n : nat) :
  own_table db ->
  exists t,
    Nat.iter (S n) (database_after insert_declared) db !! "movie" = Some t
    /\ bare t = true
    /\ length (columns t) = 3
    /\ rows t = old_rows db ++ replicate (S n) the_row.
Proof.
  intros Ha. induction n as [ | n (t & Ht & Hb & Hc & Hr) ].
  - exists (movie_after db). cbn. unfold database_after.
    rewrite script_on_own_table by done. cbn. rewrite lookup_insert_eq.
    destruct (movie_after_fits db Ha) as (? & ? & ?). done.
  - set (db' := Nat.iter (S n) (database_after insert_declared) db) in *.
    assert (Ha' : own_table db')
      by (intros t' E; rewrite Ht in E; by injection E as <-).
    exists (movie_after db').
    change (Nat.iter (S (S n)) (database_after insert_declared) db)
      with (database_after insert_declared db').
    unfold database_after at 1. rewrite script_on_own_table by done.
    cbn [file snd]. rewrite lookup_insert_eq.
    destruct (movie_after_fits db' Ha') as (Hb' & Hc' & Hr'). split; [ done | ].
    split; [ done | ]. split; [ done | ].
    rewrite Hr'. unfold old_rows at 1. rewrite Ht, Hr.
    rewrite <- app_assoc. f_equal.
    change [the_row] with (replicate 1 the_row).
    rewrite <- replicate_add. f_equal. lia.
Qed.

End SQLiteMore.

(** ** Instances *)

Section FurtherExamples.
Import Py Examples.

Lemma recoverable_failures_are_not_fatal_witness :
  result (ErrorHandling.main (inr (session_reading customers))) = Return tt
  /\ exit_status (ErrorHandling.main (inr (session_reading customers))) = 0%Z
  /\ SparkStop ∈ trace (ErrorHandling.main (inr (session_reading customers))).
Proof.
  apply (recoverable_failures_are_not_fatal (session_reading customers) customers).
  - reflexivity.
  - intros a. reflexivity.
  - intros a. reflexivity.
  - reflexivity.
  - vm_compute. lia.
  - intros e [= <-]. reflexivity.
  - intros r. discriminate.
  - intros e [= <-]. reflexivity.
Defined.

Lemma stopped_marker_anywhere_witness :
  result (ErrorHandling.read_csv_handle_exceptions
            (session_failing stopped_context_error) ErrorHandling.file_path)
  = Raise (Exception ErrorHandling.restart_message)
  <-> exists pre post,
        str stopped_context_error
        = pre +:+ ErrorHandling.stopped_context +:+ post.
Proof.
  apply (stopped_marker_anywhere (session_failing stopped_context_error)
           ErrorHandling.file_path (str stopped_context_error)).
  reflexivity.
Defined.

Lemma missing_path_by_prefix_witness :
  result (ErrorHandling.read_csv_handle_exceptions
            (session_failing path_does_not_exist_quoted) ErrorHandling.file_path)
  = Raise (FileNotFoundError
             ("File path does not exist: " +:+ ErrorHandling.file_path))
  <-> exists rest,
        str path_does_not_exist_quoted = ErrorHandling.path_prefix +:+ rest.
Proof.
  apply (missing_path_by_prefix (session_failing path_does_not_exist_quoted)
           ErrorHandling.file_path (str path_does_not_exist_quoted)
           (desc path_does_not_exist_quoted)).
  reflexivity.
Defined.

Lemma safe_distinct_count_bounds_witness :
  2 <= length (ErrorHandling.rows customers)
  /\ ("customer_id" ∈ ErrorHandling.columns customers ->
      2 = 0 -> ErrorHandling.rows customers = []).
Proof.
  apply (safe_distinct_count_bounds customers "customer_id" [] 2).
  vm_compute. reflexivity.
Defined.

Lemma safe_distinct_count_depends_on_values_witness :
  ErrorHandling.safe_distinct_count customers "customer_id"
  = ErrorHandling.safe_distinct_count customers_shuffled "customer_id".
Proof.
  apply (safe_distinct_count_depends_on_values customers customers_shuffled
           "customer_id").
  - reflexivity.
  - reflexivity.
  - left. split; [ reflexivity | ]. intros v.
    change (ErrorHandling.column_values customers "customer_id")
      with [Some 1; None; Some 1]%Z.
    change (ErrorHandling.column_values customers_shuffled "customer_id")
      with [None; Some 1; Some 1; None]%Z.
    rewrite !elem_of_cons, !elem_of_nil. tauto.
Defined.

(** For the star the values of the column of that name do not settle
    the count: the rows do. *)
Example star_counts_rows :
  (forall v, v ∈ ErrorHandling.column_values customers_starred "*"
             <-> v ∈ ErrorHandling.column_values customers_starred_once "*")
  /\ ErrorHandling.safe_distinct_count customers_starred "*" = ([], Return 2)
  /\ ErrorHandling.safe_distinct_count customers_starred_once "*" = ([], Return 1).
Proof.
  split; [ | split; vm_compute; reflexivity ]. intros v.
  change (ErrorHandling.column_values customers_starred "*")
    with [Some 1; Some 1]%Z.
  change (ErrorHandling.column_values customers_starred_once "*")
    with [Some 1]%Z.
  rewrite !elem_of_cons, !elem_of_nil. tauto.
Qed.

Lemma unreadable_file_aborts_witness :
  (EmployeeETL.run EmployeeETL.decimal true employee_data_unreadable).1
  = inl (ValueError "No columns to parse from file").
Proof.
  apply (unreadable_file_aborts EmployeeETL.decimal true employee_data_unreadable
           [("branch_d.csv", inr branch_without_salary)] "empty.csv"
           (ValueError "No columns to parse from file")
           [("branch_b.csv", inr branch_b)]).
  - reflexivity.
  - repeat constructor. by exists branch_without_salary.
Defined.

Lemma salary_column_errors_witness :
  (EmployeeETL.run EmployeeETL.decimal true employee_data_without_salary).1
  = inl (KeyError "Salary").
Proof.
  refine (proj1 (salary_column_errors EmployeeETL.decimal true
                   employee_data_without_salary [branch_a]
                   branch_without_salary [] _ _) _).
  - reflexivity.
  - repeat constructor. exists 1. vm_compute. reflexivity.
  - apply (bool_decide_unpack _). vm_compute. exact I.
Defined.

(** Two salary columns in one file: the [TypeError] of [pd.to_numeric]. *)
Example employee_data_two_salaries_fails :
  (EmployeeETL.run EmployeeETL.decimal true employee_data_two_salaries).1
  = inl (TypeError "arg must be a list, tuple, 1-d array, or Series").
Proof. vm_compute. reflexivity. Qed.


Lemma salary_column_is_numeric_witness :
  exists out,
    EmployeeETL.lookup_column "Salary" employee_master = Some out
    /\ length out = 7
    /\ Forall (fun c => EmployeeETL.is_text c = false) out
    /\ (false = false ->
        forall k f i,
          [branch_a; branch_b] !! k = Some f ->
          EmployeeETL.numeric_salaries EmployeeETL.decimal f <> [] ->
          i < length (EmployeeETL.salary_source f) ->
          exists q, out !! EmployeeETL.merged_row [branch_a; branch_b] k i
                    = Some (EmployeeETL.Num q)).
Proof.
  apply (salary_column_is_numeric EmployeeETL.decimal false employee_data
           [branch_a; branch_b] employee_master).
  - reflexivity.
  - vm_compute. reflexivity.
Defined.

Lemma loop_body_idempotent_witness :
  let w' := {| EmployeeETL.heap :=
                 [ [("Employee_ID",
                     [EmployeeETL.Num 1; EmployeeETL.Num 2; EmployeeETL.Num 3]);
                    ("Salary",
                     [EmployeeETL.Num 50000; EmployeeETL.Num 60000;
                      EmployeeETL.Num 70000]);
                    ("Department",
                     [EmployeeETL.Text "HR"; EmployeeETL.Text "IT";
                      EmployeeETL.Text "IT"])] ];
               EmployeeETL.stdout := [];
               EmployeeETL.written := ∅ |} in
  EmployeeETL.loop_body EmployeeETL.decimal false 0 w' = (inr tt, w').
Proof.
  intros w'.
  apply (loop_body_idempotent EmployeeETL.decimal false 0 branch_a
           {| EmployeeETL.heap := [branch_a];
              EmployeeETL.stdout := [];
              EmployeeETL.written := ∅ |} w').
  - reflexivity.
  - vm_compute. reflexivity.
Defined.


Lemma run_ignores_other_entries_witness :
  EmployeeETL.run EmployeeETL.decimal true employee_data
  = EmployeeETL.run EmployeeETL.decimal true
      [("branch_a.csv", inr branch_a); ("branch_b.csv", inr branch_b)].
Proof.
  apply (run_ignores_other_entries EmployeeETL.decimal true
           [("branch_a.csv", inr branch_a)] [("branch_b.csv", inr branch_b)]
           ("notes.txt", inl (Exception "not a table"))).
  right. intros [stem E]. cbn in E.
  assert (H : EmployeeETL.ends_with ".csv" "notes.txt" = true)
    by (apply ends_with_split; by exists stem).
  vm_compute in H. discriminate H.
Defined.

Lemma script_keeps_other_tables_witness :
  SQLite.database_after refusing after_first_run_with_actor !! "actor" = Some actor.
Proof.
  change (Some actor) with (after_first_run_with_actor !! "actor").
  apply (script_keeps_other_tables refusing after_first_run_with_actor "actor").
  - intros t Ht. vm_compute in Ht. injection Ht as <-. reflexivity.
  - discriminate.
Defined.

Lemma script_fails_on_other_shape_witness :
  (exists msg, (SQLite.script refusing two_column_movie).1 = inl (OperationalError msg))
  /\ SQLite.stdout (SQLite.script refusing two_column_movie).2 = []
  /\ SQLite.database_after refusing two_column_movie = two_column_movie.
Proof.
  apply (script_fails_on_other_shape refusing two_column_movie
           {| SQLite.columns := ["title"; "year"]; SQLite.rows := [];
              SQLite.bare := true |}).
  - vm_compute. reflexivity.
  - vm_compute. lia.
Defined.

Lemma script_run_again_and_again_witness :
  exists t,
    Nat.iter 3 (SQLite.database_after refusing) after_first_run !! "movie" = Some t
    /\ SQLite.bare t = true
    /\ length (SQLite.columns t) = 3
    /\ SQLite.rows t
       = [SQLite.the_row; SQLite.the_row; SQLite.the_row; SQLite.the_row].
Proof.
  apply (script_run_again_and_again refusing after_first_run 2).
  intros t Ht. vm_compute in Ht. injection Ht as <-. split; reflexivity.
Defined.

End FurtherExamples.
